(** * mvc4kivy: the screen registry of a scaffolded project

    A shallow embedding of [create_project.py], [add_view.py] and
    [remove_view.py]: screen-name tokenisation, the derived module name and
    registry key, the regeneration of [View/screens.py] and the two entry
    points that add and remove a screen.

    Python strings are modelled as lists of ASCII characters, the file system
    as a tree of named nodes, and the scripts as computations of a state and
    exception monad over that tree. *)

From Stdlib Require Import Ascii String.
From Stdlib Require Import List Bool Arith ZArith Lia.
Import ListNotations.
Open Scope list_scope.


(* ================================================================== *)
(** * Python strings *)
(* ================================================================== *)

Definition str := list ascii.

(** A string literal. *)
Definition py (s : string) : str := list_ascii_of_string s.

Definition nl : ascii := ascii_of_nat 10.
Definition dq : ascii := ascii_of_nat 34.
Definition sq : ascii := ascii_of_nat 39.
Definition percent_sign : ascii := ascii_of_nat 37.
Definition underscore : ascii := ascii_of_nat 95.
Definition slash : ascii := ascii_of_nat 47.

Fixpoint str_eqb (a b : str) : bool :=
  match a, b with
  | [], [] => true
  | x :: a', y :: b' => Ascii.eqb x y && str_eqb a' b'
  | _, _ => false
  end.

(** [x in l] for a list of strings. *)
Fixpoint list_in (x : str) (l : list str) : bool :=
  match l with
  | [] => false
  | y :: l' => str_eqb x y || list_in x l'
  end.

(** [s.startswith(p)]. *)
Fixpoint startswith (p s : str) : bool :=
  match p, s with
  | [], _ => true
  | x :: p', y :: s' => Ascii.eqb x y && startswith p' s'
  | _ :: _, [] => false
  end.

(** [s.endswith(p)]. *)
Definition endswith (p s : str) : bool :=
  startswith (rev p) (rev s).

(** [m in t] for strings: [m] occurs in [t]. *)
Fixpoint str_in (m t : str) : bool :=
  startswith m t ||
  match t with
  | [] => false
  | _ :: t' => str_in m t'
  end.

(** [s[-n:]] for [n > 0]. *)
Definition last_chars (n : nat) (s : str) : str :=
  skipn (length s - n) s.

(** ASCII upper-case letters, the class [[A-Z]]. *)
Definition in_range (lo hi c : ascii) : bool :=
  (nat_of_ascii lo <=? nat_of_ascii c) && (nat_of_ascii c <=? nat_of_ascii hi).

Definition is_upper (c : ascii) : bool := in_range "A" "Z" c.

(** [str.lower()] on ASCII text. *)
Definition lower_char (c : ascii) : ascii :=
  if is_upper c then ascii_of_nat (nat_of_ascii c + 32) else c.

Definition lower (s : str) : str := map lower_char s.

(** [sep.join(parts)]. *)
Fixpoint join (sep : str) (parts : list str) : str :=
  match parts with
  | [] => []
  | [p] => p
  | p :: rest => p ++ sep ++ join sep rest
  end.

(** [s.split(sep)] for a one-character separator: [cur] is the piece read so
    far, in reverse. *)
Fixpoint split_acc (sep : ascii) (cur : str) (s : str) : list str :=
  match s with
  | [] => [rev cur]
  | c :: s' =>
      if Ascii.eqb c sep then rev cur :: split_acc sep [] s'
      else split_acc sep (c :: cur) s'
  end.

Definition split (sep : ascii) (s : str) : list str := split_acc sep [] s.

(** [s.replace(a, b)] for one-character [a] and [b]. *)
Definition replace_char (a b : ascii) (s : str) : str :=
  map (fun c => if Ascii.eqb c a then b else c) s.

(** [template % args] for a template whose only conversions are [%s];
    [None] is Python's [TypeError] (too few or too many arguments, or
    another conversion). *)
Fixpoint percent (template : str) (args : list str) : option str :=
  match template with
  | [] => match args with [] => Some [] | _ :: _ => None end
  | c :: t' =>
      if Ascii.eqb c percent_sign then
        match t' with
        | d :: t'' =>
            if Ascii.eqb d "s" then
              match args with
              | a :: args' => option_map (app a) (percent t'' args')
              | [] => None
              end
            else None
        | [] => None
        end
      else option_map (cons c) (percent t' args)
  end.

(** [template.format(...)] with positional values [pos] and keyword values
    [kw], for templates whose replacement fields are
    plain names or the empty auto-numbered field; [None] is Python's
    [KeyError]/[IndexError]/[ValueError]. *)
Fixpoint lookup_field (name : str) (kw : list (str * str)) : option str :=
  match kw with
  | [] => None
  | (k, v) :: kw' => if str_eqb name k then Some v else lookup_field name kw'
  end.

Fixpoint format_acc (field : option str) (template : str)
         (pos : list str) (kw : list (str * str)) : option str :=
  match template with
  | [] => match field with None => Some [] | Some _ => None end
  | c :: t' =>
      match field with
      | None =>
          if Ascii.eqb c "{" then format_acc (Some []) t' pos kw
          else if Ascii.eqb c "}" then None
          else option_map (cons c) (format_acc None t' pos kw)
      | Some name =>
          if Ascii.eqb c "}" then
            match rev name with
            | [] =>
                match pos with
                | v :: pos' => option_map (app v) (format_acc None t' pos' kw)
                | [] => None
                end
            | n =>
                match lookup_field n kw with
                | Some v => option_map (app v) (format_acc None t' pos kw)
                | None => None
                end
            end
          else format_acc (Some (c :: name)) t' pos kw
      end
  end.

Definition format (template : str) (pos : list str) (kw : list (str * str))
  : option str :=
  format_acc None template pos kw.

(** [posixpath.join(a, *p)]. *)
Definition posix_join_step (path b : str) : str :=
  if startswith [slash] b then b
  else if (match path with [] => true | _ => false end) || endswith [slash] path
       then path ++ b
       else path ++ [slash] ++ b.

Definition posixpath_join (a : str) (p : list str) : str :=
  fold_left posix_join_step p a.

(** [l.remove(x)]: drops the first occurrence, [None] is [ValueError]. *)
Fixpoint list_remove (x : str) (l : list str) : option (list str) :=
  match l with
  | [] => None
  | y :: l' =>
      if str_eqb y x then Some l'
      else option_map (cons y) (list_remove x l')
  end.

(* ================================================================== *)
(** * Regular expressions: the fragment of [re] the scripts use *)
(* ================================================================== *)

Inductive regex : Type :=
| Eps                              (* the empty pattern *)
| Lit (c : ascii)                  (* a literal character *)
| Dot                              (* [.]: any character but a newline *)
| Range (lo hi : ascii)            (* [[lo-hi]] *)
| NotRange (lo hi : ascii)         (* [[^lo-hi]] *)
| Cat (r1 r2 : regex)
| Alt (r1 r2 : regex)              (* [r1|r2], [r1] tried first *)
| Star (r : regex).                (* [r*], greedy *)

Definition char_matches (r : regex) (c : ascii) : bool :=
  match r with
  | Lit d => Ascii.eqb c d
  | Dot => negb (Ascii.eqb c nl)
  | Range lo hi => in_range lo hi c
  | NotRange lo hi => negb (in_range lo hi c)
  | _ => false
  end.

Section StarLoop.
Variable body : str -> (str -> option str) -> option str.
Variable k : str -> option str.

(** Greedy repetition with backtracking: one more iteration of the body
    first, the continuation next.  An iteration that consumes nothing ends
    the repetition, as in [sre]. *)
Fixpoint star_loop (n : nat) (s : str) : option str :=
  match n with
  | 0 => k s
  | S n' =>
      match body s (fun s' =>
               if length s' <? length s then star_loop n' s' else None) with
      | Some rest => Some rest
      | None => k s
      end
  end.
End StarLoop.

(** Backtracking matcher in continuation-passing style: [rmatch r s k] matches
    [r] at the start of [s] and hands the unread rest to [k]; the first
    success in priority order wins. *)
Fixpoint rmatch (r : regex) (s : str) (k : str -> option str) : option str :=
  match r with
  | Eps => k s
  | Cat r1 r2 => rmatch r1 s (fun s' => rmatch r2 s' k)
  | Alt r1 r2 =>
      match rmatch r1 s k with
      | Some rest => Some rest
      | None => rmatch r2 s k
      end
  | Star r1 => star_loop (rmatch r1) k (length s) s
  | _ =>
      match s with
      | c :: s' => if char_matches r c then k s' else None
      | [] => None
      end
  end.

(** The rest of [s] after a match of [r] at its start. *)
Definition match_here (r : regex) (s : str) : option str :=
  rmatch r s (fun rest => Some rest).

(** [re.findall(r, s)] for a pattern without groups: the non-overlapping
    matches, scanning from the left.  (After an empty match the scan moves on
    by one character; neither pattern of the scripts can match the empty
    string.) *)
Fixpoint findall_from (fuel : nat) (r : regex) (s : str) : list str :=
  match fuel with
  | 0 => []
  | S fuel' =>
      match match_here r s with
      | Some rest =>
          firstn (length s - length rest) s ::
          (if length rest <? length s then findall_from fuel' r rest
           else match s with
                | [] => []
                | _ :: s' => findall_from fuel' r s'
                end)
      | None =>
          match s with
          | [] => []
          | _ :: s' => findall_from fuel' r s'
          end
      end
  end.

Definition re_findall (r : regex) (s : str) : list str :=
  findall_from (S (length s)) r s.

(** A literal word as a pattern. *)
Fixpoint word (w : str) : regex :=
  match w with
  | [] => Eps
  | c :: w' => Cat (Lit c) (word w')
  end.

(** [r"[A-Z][^A-Z]*"] *)
Definition camel_pattern : regex :=
  Cat (Range "A" "Z") (Star (NotRange "A" "Z")).

(** ["from Model.*Model|from Controller.*Controller|from View.*View"] *)
Definition imports_pattern : regex :=
  Alt (Alt (Cat (word (py "from Model")) (Cat (Star Dot) (word (py "Model"))))
           (Cat (word (py "from Controller"))
                (Cat (Star Dot) (word (py "Controller")))))
      (Cat (word (py "from View")) (Cat (Star Dot) (word (py "View")))).

(** The tokenizer as the specification words it: the name is cut in front of
    every upper-case letter; what precedes the first one is dropped.
    [split_upper s] returns the leading run without upper-case letters and the
    tokens that follow it. *)
Fixpoint split_upper (s : str) : str * list str :=
  match s with
  | [] => ([], [])
  | c :: s' =>
      let (run, toks) := split_upper s' in
      if is_upper c then ([], (c :: run) :: toks) else (c :: run, toks)
  end.

Definition tokens (s : str) : list str := snd (split_upper s).


(* ================================================================== *)
(** * The file system *)
(* ================================================================== *)

(** A node is a file with its text or a directory with its entries, in the
    order [os.listdir] reports them.  A path is the list of the names that
    lead from the root to a node: [os.path.join] of a path and names appends
    them (every name is taken to be a single component). *)
#[warnings="-register-all"]
Inductive node : Type :=
| File (data : str)
| Dir (entries : list (str * node)).

Definition path := list str.

Inductive exn : Type :=
| SystemExit (status : nat)     (* raised when the argument parser gives up *)
| FileNotFoundError
| FileExistsError
| NotADirectoryError
| IsADirectoryError
| PermissionError
| KeyError
| TypeError
| ValueError.

(** The name of the Python class of an exception. *)
Definition exn_name (e : exn) : str :=
  match e with
  | SystemExit _ => py "SystemExit"
  | FileNotFoundError => py "FileNotFoundError"
  | FileExistsError => py "FileExistsError"
  | NotADirectoryError => py "NotADirectoryError"
  | IsADirectoryError => py "IsADirectoryError"
  | PermissionError => py "PermissionError"
  | KeyError => py "KeyError"
  | TypeError => py "TypeError"
  | ValueError => py "ValueError"
  end.

Fixpoint assoc (x : str) (es : list (str * node)) : option node :=
  match es with
  | [] => None
  | (y, c) :: es' => if str_eqb x y then Some c else assoc x es'
  end.

(** Replaces the entry named [x], or adds it after the others. *)
Fixpoint set_entry (x : str) (c : node) (es : list (str * node))
  : list (str * node) :=
  match es with
  | [] => [(x, c)]
  | (y, d) :: es' =>
      if str_eqb x y then (x, c) :: es' else (y, d) :: set_entry x c es'
  end.

Definition del_entry (x : str) (es : list (str * node)) : list (str * node) :=
  filter (fun e => negb (str_eqb x (fst e))) es.

Fixpoint lookup (p : path) (n : node) : option node :=
  match p with
  | [] => Some n
  | x :: p' =>
      match n with
      | File _ => None
      | Dir es =>
          match assoc x es with
          | Some c => lookup p' c
          | None => None
          end
      end
  end.

(** One change of the tree at path [p]: [f] sees the entry found there (if
    any) and answers with the entry to store, with [None] to drop it, or with
    an error.  The directories above [p] must exist. *)
Fixpoint fs_update (f : option node -> exn + option node) (p : path) (n : node)
  : exn + node :=
  match p with
  | [] => inl PermissionError
  | x :: p' =>
      match n with
      | File _ => inl NotADirectoryError
      | Dir es =>
          match p' with
          | [] =>
              match f (assoc x es) with
              | inl e => inl e
              | inr (Some c) => inr (Dir (set_entry x c es))
              | inr None => inr (Dir (del_entry x es))
              end
          | _ :: _ =>
              match assoc x es with
              | None => inl FileNotFoundError
              | Some d =>
                  match fs_update f p' d with
                  | inl e => inl e
                  | inr d' => inr (Dir (set_entry x d' es))
                  end
              end
          end
      end
  end.

(** The chain of fresh directories [p] below a new entry. *)
Definition fresh_dirs (p : path) : node :=
  fold_right (fun x d => Dir [(x, d)]) (Dir []) p.

Fixpoint makedirs_in (p : path) (n : node) : exn + node :=
  match p with
  | [] => inl FileExistsError
  | x :: p' =>
      match n with
      | File _ => inl NotADirectoryError
      | Dir es =>
          match assoc x es with
          | Some d =>
              match makedirs_in p' d with
              | inl e => inl e
              | inr d' => inr (Dir (set_entry x d' es))
              end
          | None => inr (Dir (es ++ [(x, fresh_dirs p')]))
          end
      end
  end.

(* ================================================================== *)
(** * Computations: state (the file system) and exceptions *)
(* ================================================================== *)

Definition M (A : Type) : Type := node -> (exn + A) * node.

Definition ret {A} (a : A) : M A := fun fs => (inr a, fs).

Definition raise {A} (e : exn) : M A := fun fs => (inl e, fs).

Definition bind {A B} (m : M A) (f : A -> M B) : M B :=
  fun fs =>
    match m fs with
    | (inr a, fs') => f a fs'
    | (inl e, fs') => (inl e, fs')
    end.

Notation "x <- m ;; f" := (bind m (fun x => f))
  (at level 61, m at next level, right associativity).
Notation "m ;;; f" := (bind m (fun _ => f))
  (at level 61, right associativity).

(** A read-only operation. *)
Definition query {A} (q : node -> exn + A) : M A := fun fs => (q fs, fs).

(** An operation that changes the tree, or fails and leaves it as it was. *)
Definition change (u : node -> exn + node) : M unit :=
  fun fs =>
    match u fs with
    | inr fs' => (inr tt, fs')
    | inl e => (inl e, fs)
    end.

Definition or_raise {A} (e : exn) (o : option A) : M A :=
  match o with
  | Some a => ret a
  | None => raise e
  end.

Fixpoint for_each {A} (l : list A) (f : A -> M unit) : M unit :=
  match l with
  | [] => ret tt
  | a :: l' => f a ;;; for_each l' f
  end.

(** [os.path.exists(p)] *)
Definition os_path_exists (p : path) : M bool :=
  query (fun fs => inr (match lookup p fs with Some _ => true | None => false end)).

(** [os.path.isdir(p)] *)
Definition os_path_isdir (p : path) : M bool :=
  query (fun fs => inr (match lookup p fs with Some (Dir _) => true | _ => false end)).

(** [os.listdir(p)] *)
Definition os_listdir (p : path) : M (list str) :=
  query (fun fs =>
           match lookup p fs with
           | Some (Dir es) => inr (map fst es)
           | Some (File _) => inl NotADirectoryError
           | None => inl FileNotFoundError
           end).

(** [open(p).read()] *)
Definition read_file (p : path) : M str :=
  query (fun fs =>
           match lookup p fs with
           | Some (File data) => inr data
           | Some (Dir _) => inl IsADirectoryError
           | None => inl FileNotFoundError
           end).

(** [open(p, "w").write(data)] *)
Definition write_file (p : path) (data : str) : M unit :=
  change (fs_update (fun e =>
                       match e with
                       | Some (Dir _) => inl IsADirectoryError
                       | _ => inr (Some (File data))
                       end) p).

(** [with open(p, "w") as f: f.write(<data>)]: the file is created or emptied
    before the text is computed. *)
Definition with_open_w (p : path) (data : M str) : M unit :=
  write_file p [] ;;;
  d <- data ;;
  write_file p d.

(** [os.mkdir(p)] *)
Definition os_mkdir (p : path) : M unit :=
  change (fs_update (fun e =>
                       match e with
                       | Some _ => inl FileExistsError
                       | None => inr (Some (Dir []))
                       end) p).

(** [os.makedirs(p)] *)
Definition os_makedirs (p : path) : M unit := change (makedirs_in p).

(** [os.remove(p)] *)
Definition os_remove (p : path) : M unit :=
  change (fs_update (fun e =>
                       match e with
                       | None => inl FileNotFoundError
                       | Some (Dir _) => inl IsADirectoryError
                       | Some (File _) => inr None
                       end) p).

(** [shutil.rmtree(p)] *)
Definition rmtree (p : path) : M unit :=
  change (fs_update (fun e =>
                       match e with
                       | None => inl FileNotFoundError
                       | Some (File _) => inl NotADirectoryError
                       | Some (Dir _) => inr None
                       end) p).

(** [shutil.copy(src, dst)]: into [dst] under the name of [src] when [dst] is
    a directory. *)
Definition shutil_copy (src dst : path) : M unit :=
  data <- read_file src ;;
  isdir <- os_path_isdir dst ;;
  if isdir then write_file (dst ++ [last src []]) data
  else write_file dst data.

(** Modelled from the spec: [parser.error(message)] of
    [ArgumentParserWithHelp], which is declared in the package's [__init__]
    module and is not among the sources; a validation failure is reported and
    the run is aborted. *)
Definition parser_error {A} : M A := raise (SystemExit 2).

(* ================================================================== *)
(** * create_project.py *)
(* ================================================================== *)

(** A literal in which [^] stands for the double quote. *)
Definition pyq (s : string) : str := replace_char "^" dq (py s).

(** A text given line by line. *)
Definition text (lines : list str) : str := join [nl] lines.

Module CreateProject.

Definition temp_database_model : str :=
  text [
    py "from Model.base_model import BaseScreenModel";
    py "";
    py "";
    py "class {name_screen}Model(BaseScreenModel):";
    pyq "    ^^^";
    py "    Implements the logic of the";
    py "    :class:`~View.{name_screen}.{module_name}.{name_screen}View` class.";
    pyq "    ^^^";
    py "";
    py "    def __init__(self, database):";
    py "        super().__init__(database)";
    py ""
  ].

Definition temp_without_database_model : str :=
  text [
    py "from Model.base_model import BaseScreenModel";
    py "";
    py "";
    py "class {name_screen}Model(BaseScreenModel):";
    pyq "    ^^^";
    py "    Implements the logic of the";
    py "    :class:`~View.{module_name}.{name_screen}.{name_screen}View` class.";
    pyq "    ^^^"
  ].

Definition temp_screens_imports : str :=
  text [
    py "# The screens dictionary contains the objects of the models and controllers";
    py "# of the screens of the application.";
    py "";
    py "";
    py ""
  ].

Definition temp_code_responsive_view : str :=
  text [
    py "from kivymd.uix.responsivelayout import MDResponsiveLayout";
    py "";
    py "from View.{name_screen}.components import (";
    py "    {name_screen}MobileView,";
    py "    {name_screen}TabletView,";
    py "    {name_screen}DesktopView,";
    py ")";
    py "from View.base_screen import BaseScreenView";
    py "";
    py "";
    py "class {name_screen}View(MDResponsiveLayout, BaseScreenView):";
    py "    def __init__(self, **kw):";
    py "        super().__init__(" ++ py "**kw)";
    py "        self.mobile_view = {name_screen}MobileView{parenthesis}";
    py "        self.tablet_view = {name_screen}TabletView{parenthesis}";
    py "        self.desktop_view = {name_screen}DesktopView{parenthesis}";
    py "";
    py "    def model_is_changed(self) -> None:";
    pyq "        ^^^";
    py "        Called whenever any change has occurred in the data model.";
    py "        The view in this method tracks these changes and updates the UI";
    py "        according to these changes.";
    pyq "        ^^^";
    py ""
  ].

Definition temp_responsive_component_imports : str :=
  text [
    py "from .platforms.Mobile.mobile import {name_screen}MobileView";
    py "from .platforms.Tablet.tablet import {name_screen}TabletView";
    py "from .platforms.Desktop.desktop import {name_screen}DesktopView";
    py ""
  ].

Definition temp_responsive_platform_baseclass : str :=
  text [
    py "from kivymd.uix.screen import MDScreen";
    py "from kivy.lang import Builder";
    py "from os.path import dirname, join, basename";
    py "";
    pyq "Builder.load_file(join(dirname(__file__), basename(__file__).split(^.^)[0] + ^.kv^))";
    py "";
    py "";
    py "class {}View(MDScreen):";
    py "    pass";
    py ""
  ].

Definition temp_code_view : str :=
  text [
    py "from View.base_screen import BaseScreenView";
    py "";
    py "";
    py "class {name_screen}View(BaseScreenView):";
    py "    def model_is_changed(self) -> None:";
    pyq "        ^^^";
    py "        Called whenever any change has occurred in the data model.";
    py "        The view in this method tracks these changes and updates the UI";
    py "        according to these changes.";
    pyq "        ^^^";
    py ""
  ].

Definition temp_code_controller : str :=
  text [
    py "from Controller.base_controller import BaseScreenController";
    py "";
    py "";
    py "class {name_screen}Controller(BaseScreenController):";
    pyq "    ^^^";
    py "    The `{name_screen}Controller` class represents a controller implementation.";
    py "    Coordinates work of the view with the model.";
    py "    The controller implements the strategy pattern. The controller connects to";
    py "    the view to control its actions.";
    pyq "    ^^^";
    py "";
    py ""
  ].

Definition temp_base_controller : str :=
  text [
    py "class BaseScreenController:";
    py "    def __init__(self, app, model):";
    py "        self.app = app";
    py "        self.model = model";
    py "        self.view = None";
    py "        ";
    py "    def set_view(self, view):";
    py "        self.view = view";
    py "        ";
    py "    def get_view(self):";
    py "        return self.view";
    py ""
  ].

(** The module globals that collect the text of [View/screens.py]. *)
Record globals : Type := {
  g_temp_screens_imports : str;
  g_temp_screens_data : str
}.

Definition initial_globals : globals :=
  {| g_temp_screens_imports := temp_screens_imports;
     g_temp_screens_data := [] |}.

(** [False] is [None]. *)
Definition check_camel_case_name_project (name_project : str)
  : option (list str) :=
  let result := re_findall camel_pattern name_project in
  if length result =? 1 then None else Some result.

Definition create_model (name_screen module_name name_database : str)
           (path_to_project : path) : M unit :=
  code_model <-
    (if negb (str_eqb name_database (py "no")) then
       or_raise KeyError
         (format temp_database_model []
            [(py "name_screen", name_screen);
             (py "module_name", module_name);
             (py "notify_name_screen",
               [dq] ++ join (py " ") (split underscore module_name) ++ [dq])])
     else
       or_raise KeyError
         (format temp_without_database_model []
            [(py "module_name", module_name);
             (py "name_screen", name_screen)])) ;;
  write_file (path_to_project ++ [py "Model"; module_name ++ py ".py"])
             code_model.

Definition create_controller (name_screen module_name use_hotreload : str)
           (path_to_project : path) : M unit :=
  code_controller <-
    or_raise KeyError
      (format temp_code_controller [] [(py "name_screen", name_screen)]) ;;
  let path_to_controller := path_to_project ++ [py "Controller"] in
  let path_to_base_controller :=
    path_to_controller ++ [py "base_controller.py"] in
  found <- os_path_exists path_to_controller ;;
  (if negb found then
     os_mkdir path_to_controller ;;;
     write_file path_to_base_controller temp_base_controller
   else ret tt) ;;;
  write_file (path_to_project ++ [py "Controller"; module_name ++ py ".py"])
             code_controller.

Definition create_common_responsive_module (use_responsive : list str)
           (path_to_project : path) : M unit :=
  for_each use_responsive (fun name_screen =>
    let path_to_init_common :=
      path_to_project ++
      [py "View"; name_screen; py "components"; py "common"] in
    os_makedirs path_to_init_common ;;;
    write_file (path_to_init_common ++ [py "__init__.py"])
      (py "# This directory is for common responsive design components" ++ [nl])).

(** [instantiate_responsive_view] is the global of this module. *)
Definition create_view (instantiate_responsive_view : str)
           (name_screen module_name : str) (use_responsive : list str)
           (path_to_project : path) : M unit :=
  let path_to_view := path_to_project ++ [py "View"; name_screen] in
  let path_to_components := path_to_view ++ [py "components"] in
  os_makedirs path_to_view ;;;
  os_makedirs path_to_components ;;;
  write_file (path_to_view ++ [py "__init__.py"]) [] ;;;
  with_open_w (path_to_view ++ [module_name ++ py ".py"])
    (or_raise KeyError
       (if negb (list_in name_screen use_responsive) then
          format temp_code_view [] [(py "name_screen", name_screen)]
        else
          format temp_code_responsive_view []
            [(py "name_screen", name_screen);
             (py "parenthesis",
               if str_eqb instantiate_responsive_view (py "yes")
               then py "()" else [])])) ;;;
  (if list_in name_screen use_responsive then
     let path_to_init_components :=
       path_to_project ++
       [py "View"; name_screen; py "components"; py "__init__.py"] in
     let path_to_platforms :=
       path_to_project ++
       [py "View"; name_screen; py "components"; py "platforms"] in
     for_each [py "Desktop"; py "Mobile"; py "Tablet"] (fun name_platform =>
       let path_to_platform := path_to_platforms ++ [name_platform] in
       let path_to_platform_components :=
         path_to_platform ++ [py "components"] in
       os_makedirs path_to_platform_components ;;;
       shutil_copy (path_to_view ++ [py "__init__.py"])
                   path_to_platform_components ;;;
       shutil_copy (path_to_view ++ [py "__init__.py"]) path_to_platforms ;;;
       let name_platform_module := lower name_platform in
       write_file (path_to_platform ++ [name_platform_module ++ py ".kv"])
         (py "<" ++ name_screen ++ name_platform ++ py "View>" ++ [nl]) ;;;
       with_open_w (path_to_platform ++ [name_platform_module ++ py ".py"])
         (or_raise KeyError
            (format temp_responsive_platform_baseclass
               [name_screen ++ name_platform] []))) ;;;
     with_open_w path_to_init_components
       (or_raise KeyError
          (format temp_responsive_component_imports []
             [(py "name_screen", name_screen)]))
   else ret tt) ;;;
  write_file (path_to_view ++ [module_name ++ py ".kv"])
    (py "<" ++ name_screen ++ py "View>" ++ [nl] ++ py "    name: '" ++
     replace_char underscore " " module_name ++ py "'") ;;;
  (if negb (list_in name_screen use_responsive) then
     shutil_copy (path_to_view ++ [py "__init__.py"]) path_to_components
   else ret tt).

(** The template of one entry of the [screens] dictionary. *)
Definition entry_template : str :=
  text [ [];
         pyq "    %s: {";
         pyq "        ^model^: %s,";
         pyq "        ^controller^: %s,";
         pyq "        ^view^: %s,";
         pyq "        ^kv^: %s";
         py "    },";
         [] ].

Definition create_screens_data (name_screen module_name : str) (g : globals)
  : option globals :=
  let imports :=
    g_temp_screens_imports g ++
    py "from Model." ++ module_name ++ py " import " ++ name_screen ++
      py "Model" ++ [nl] ++
    py "from Controller." ++ module_name ++ py " import " ++ name_screen ++
      py "Controller" ++ [nl] ++
    py "from View." ++ name_screen ++ py "." ++ module_name ++ py " import " ++
      name_screen ++ py "View" ++ [nl] in
  match
    percent entry_template
      [ [dq] ++ join (py " ") (split underscore module_name) ++ [dq];
        name_screen ++ py "Model";
        name_screen ++ py "Controller";
        name_screen ++ py "View";
        [dq] ++ posixpath_join (py "./View")
                  [name_screen; module_name ++ py ".kv"] ++ [dq] ]
  with
  | Some entry =>
      Some {| g_temp_screens_imports := imports;
              g_temp_screens_data := g_temp_screens_data g ++ entry |}
  | None => None
  end.

(** The text [create_module_screens] writes to [View/screens.py]. *)
Definition create_module_screens (g : globals) : option str :=
  percent (py "%s" ++ [nl] ++ py "screens = {%s}")
          [g_temp_screens_imports g; g_temp_screens_data g].

(** The part of [main] that builds the registry: for every name of
    [--name_screen], the module name and [create_screens_data]; then
    [create_module_screens].  [None] stands for a rejected name. *)
Fixpoint screens_data_loop (name_screen : list str) (g : globals)
  : option globals :=
  match name_screen with
  | [] => Some g
  | name :: rest =>
      match check_camel_case_name_project name with
      | None | Some [] => None
      | Some module_name =>
          let module_name := join (py "_") (map lower module_name) in
          match create_screens_data name module_name g with
          | Some g' => screens_data_loop rest g'
          | None => None
          end
      end
  end.

Definition module_screens_text (name_screen : list str) : option str :=
  match screens_data_loop name_screen initial_globals with
  | Some g => create_module_screens g
  | None => None
  end.

End CreateProject.

(* ================================================================== *)
(** * add_view.py *)
(* ================================================================== *)

Module AddView.

Definition screens_data : str :=
  text [ py "%s"; []; py "screens = {%s"; py "}"; [] ].

Definition screns_comment : str :=
  text [ py "# The screen's dictionary contains the objects of the models and controllers";
         py "# of the screens of the application.";
         [] ].

Record arguments : Type := {
  pattern : str;
  directory : path;
  name : str;
  use_responsive : str;
  instantiate_responsive_view : str
}.

(** The template of one entry of the [screens] dictionary. *)
Definition entry_template : str :=
  text [ [];
         py "    '%s': {";
         py "        'model': %s,";
         py "        'controller': %s,";
         py "        'view': %s,";
         py "        'kv': %s";
         py "    },";
         [] ].

(** The loop over [os.listdir(path_to_view)], with the text collected so far
    in [screens]. *)
Fixpoint screens_loop (path_to_view : path) (names : list str) (screens : str)
  : M str :=
  match names with
  | [] => ret screens
  | name :: names' =>
      isdir <- os_path_isdir (path_to_view ++ [name]) ;;
      if isdir then
        let res := re_findall camel_pattern name in
        if (match res with [] => false | _ => true end)
           && (1 <? length res)
           && str_eqb (last res []) (py "Screen")
        then
          let snake_case := py "_" in
          entry <-
            or_raise TypeError
              (percent entry_template
                 [ lower (join (py " ") res);
                   name ++ py "Model";
                   name ++ py "Controller";
                   name ++ py "View";
                   [dq] ++
                   posixpath_join (py "./View")
                     [name; lower (join snake_case res) ++ py ".kv"] ++
                   [dq] ]) ;;
          screens_loop path_to_view names' (screens ++ entry)
        else screens_loop path_to_view names' screens
      else screens_loop path_to_view names' screens
  end.

Definition update_screens_data (name_view module_name : str)
           (path_to_project : path) : M unit :=
  screen_module <- read_file (path_to_project ++ [py "View"; py "screens.py"]) ;;
  let imports := re_findall imports_pattern screen_module in
  let screens := [] in
  let path_to_view := path_to_project ++ [py "View"] in
  names <- os_listdir path_to_view ;;
  screens <- screens_loop path_to_view names screens ;;
  let imports :=
    imports ++
    [py "from Model." ++ module_name ++ py " import " ++ name_view ++ py "Model"] in
  let imports :=
    imports ++
    [py "from Controller." ++ module_name ++ py " import " ++ name_view ++
     py "Controller"] in
  let imports :=
    imports ++
    [py "from View." ++ name_view ++ py "." ++ module_name ++ py " import " ++
     name_view ++ py "View"] in
  let imports := screns_comment :: imports in
  screens <- or_raise TypeError
               (percent screens_data [join [nl] imports; screens]) ;;
  write_file (path_to_project ++ [py "View"; py "screens.py"]) screens.

(** [main], after the arguments are parsed.  [create_view] reads the global
    [instantiate_responsive_view] of [create_project], which is still the
    empty string here: the assignment in this [main] sets the global of
    [add_view]. *)
Definition main (args : arguments) : M unit :=
  let path_to_project := directory args in
  let name_view := name args in
  let use_responsive := use_responsive args in
  found <- os_path_exists path_to_project ;;
  (if negb found then parser_error else ret tt) ;;;
  (if negb (str_eqb (last_chars 6 name_view) (py "Screen"))
   then parser_error else ret tt) ;;;
  views <- os_listdir (path_to_project ++ [py "View"]) ;;
  (if list_in name_view views then parser_error else ret tt) ;;;
  models <- os_listdir (path_to_project ++ [py "Model"]) ;;
  let name_database :=
    if list_in (py "database.py") models then py "yes" else py "no" in
  module_name <-
    match CreateProject.check_camel_case_name_project name_view with
    | None | Some [] => parser_error
    | Some module_name => ret module_name
    end ;;
  let module_name := join (py "_") (map lower module_name) in
  CreateProject.create_model name_view module_name name_database
                             path_to_project ;;;
  main_module <- read_file (path_to_project ++ [py "main.py"]) ;;
  let use_hotreload :=
    if str_in (py "from kivymd.tools.hotreload.app import MDApp") main_module
    then py "yes" else py "no" in
  CreateProject.create_controller name_view module_name use_hotreload
                                  path_to_project ;;;
  (if str_eqb use_responsive (py "no") then
     CreateProject.create_view [] name_view module_name [] path_to_project
   else
     CreateProject.create_view [] name_view module_name [name_view]
                               path_to_project ;;;
     CreateProject.create_common_responsive_module [name_view]
                                                   path_to_project) ;;;
  update_screens_data name_view module_name path_to_project.

End AddView.

(* ================================================================== *)
(** * remove_view.py *)
(* ================================================================== *)

Module RemoveView.

Definition screens_data : str :=
  text [ py "%s"; []; py "screens = {%s"; py "}" ].

Definition screens_comment : str :=
  text [ py "# The screen's dictionary contains the objects of the models and controllers";
         py "# of the screens of the application.";
         [] ].

Record arguments : Type := {
  pattern : str;
  directory : path;
  name : str
}.

Definition remove_view (name_screen module_name : str)
           (path_to_project : path) : M unit :=
  let path_to_view := path_to_project ++ [py "View"; name_screen] in
  let path_to_controller := path_to_view ++ [py "Controller"; py "components"] in
  let path_to_model := path_to_view ++ [py "Model"; module_name] in
  rmtree path_to_view ;;;
  os_remove path_to_controller ;;;
  os_remove path_to_model.

(** The template of one entry of the [screens] dictionary. *)
Definition entry_template : str :=
  text [ [];
         py "    '%s': {";
         py "        'model': %s,";
         py "        'controller': %s,";
         py "        'view': %s,";
         py "        'kv': %s";
         py "    },";
         [] ].

(** The loop over [os.listdir(path_to_view)], with the text collected so far
    in [screens]. *)
Fixpoint screens_loop (path_to_view : path) (names : list str) (screens : str)
  : M str :=
  match names with
  | [] => ret screens
  | name :: names' =>
      isdir <- os_path_isdir (path_to_view ++ [name]) ;;
      if isdir then
        let res := re_findall camel_pattern name in
        if (match res with [] => false | _ => true end)
           && (1 <? length res)
           && str_eqb (last res []) (py "Screen")
        then
          let snake_case := py "_" in
          entry <-
            or_raise TypeError
              (percent entry_template
                 [ lower (join (py " ") res);
                   name ++ py "Model";
                   name ++ py "Controller";
                   name ++ py "View";
                   [dq] ++
                   posixpath_join (py "./View")
                     [name; lower (join snake_case res) ++ py ".kv"] ++
                   [dq] ]) ;;
          screens_loop path_to_view names' (screens ++ entry)
        else screens_loop path_to_view names' screens
      else screens_loop path_to_view names' screens
  end.

Definition update_screens_data (name_view module_name : str)
           (path_to_project : path) : M unit :=
  screen_module <- read_file (path_to_project ++ [py "View"; py "screens.py"]) ;;
  let imports := re_findall imports_pattern screen_module in
  let screens := [] in
  let path_to_view := path_to_project ++ [py "View"] in
  names <- os_listdir path_to_view ;;
  screens <- screens_loop path_to_view names screens ;;
  imports <-
    or_raise ValueError
      (list_remove
         (py "from Model." ++ module_name ++ py " import " ++ name_view ++
          py "Model") imports) ;;
  imports <-
    or_raise ValueError
      (list_remove
         (py "from Controller." ++ module_name ++ py " import " ++ name_view ++
          py "Controller") imports) ;;
  imports <-
    or_raise ValueError
      (list_remove
         (py "from View." ++ name_view ++ py "." ++ module_name ++
          py " import " ++ name_view ++ py "View") imports) ;;
  let imports := screens_comment :: imports in
  screens <- or_raise TypeError
               (percent screens_data [join [nl] imports; screens]) ;;
  write_file (path_to_project ++ [py "View"; py "screens.py"]) screens.

(** [main], after the arguments are parsed. *)
Definition main (args : arguments) : M unit :=
  let path_to_project := directory args in
  let name_view := name args in
  found <- os_path_exists path_to_project ;;
  (if negb found then parser_error else ret tt) ;;;
  (if negb (str_eqb (last_chars 6 name_view) (py "Screen"))
   then parser_error else ret tt) ;;;
  views <- os_listdir (path_to_project ++ [py "View"]) ;;
  (if negb (list_in name_view views) then parser_error else ret tt) ;;;
  module_name <-
    match CreateProject.check_camel_case_name_project name_view with
    | None | Some [] => parser_error
    | Some module_name => ret module_name
    end ;;
  let module_name := join (py "_") (map lower module_name) in
  remove_view name_view module_name path_to_project ;;;
  update_screens_data name_view module_name path_to_project.

End RemoveView.


(* ================================================================== *)
(** * MVC/libs/__init__.py *)
(* ================================================================== *)

Module Libs.

(** A dictionary with string keys and string values, as the list of its
    items. *)
Definition dict := list (str * str).

(** [d[key]]; [None] is [KeyError]. *)
Fixpoint getitem (d : dict) (key : str) : option str :=
  match d with
  | [] => None
  | (k, v) :: d' => if str_eqb key k then Some v else getitem d' key
  end.

(** [next((index for (index, d) in enumerate(lst) if d[key] == value), None)],
    with [index] the number of the dictionaries already passed. *)
Fixpoint get_dict_pos_from (index : nat) (lst : list dict) (key value : str)
  : exn + option nat :=
  match lst with
  | [] => inr None
  | d :: lst' =>
      match getitem d key with
      | None => inl KeyError
      | Some v =>
          if str_eqb v value then inr (Some index)
          else get_dict_pos_from (S index) lst' key value
      end
  end.

Definition get_dict_pos (lst : list dict) (key value : str)
  : exn + option nat :=
  get_dict_pos_from 0 lst key value.

(** [list(filter(lambda search_found: search_term in search_found[data_key],
    data))]: the items are tested in order, the first one without the key
    ends the call. *)
Fixpoint search_dict (search_term data_key : str) (data : list dict)
  : exn + list dict :=
  match data with
  | [] => inr []
  | d :: data' =>
      match getitem d data_key with
      | None => inl KeyError
      | Some v =>
          match search_dict search_term data_key data' with
          | inl e => inl e
          | inr found => inr (if str_in search_term v then d :: found else found)
          end
      end
  end.

Section ShortenText.

(** The width in pixels, an integer, that the label of the given font size
    measures for a text: [lbl.get_cached_extents()(text)[0]]. *)
Variable text_width : str -> Z.

(** [new_text.split(" ")], [del new_text[-1]], [" ".join(new_text)]. *)
Definition drop_last_word (new_text : str) : str :=
  join (py " ") (removelast (split " " new_text)).

(** The [while] loop, with [fuel] rounds at most; [None] when they are used
    up. *)
Fixpoint shorten_loop (fuel : nat) (new_text suffix : str) (t lbl_width : Z)
  : option str :=
  match fuel with
  | 0 => None
  | S fuel' =>
      if (text_width (new_text ++ suffix ++ py " more") >? lbl_width)%Z then
        let new_text := drop_last_word new_text in
        if (text_width (new_text ++ suffix ++ py " more") =? t)%Z then Some []
        else
          shorten_loop fuel' new_text suffix
                       (text_width (new_text ++ suffix ++ py " more"))
                       lbl_width
      else Some (new_text ++ suffix)
  end.

Definition shorten_text (text : str) (lbl_width lines : Z) (suffix : str)
  : option str :=
  let new_text := text in
  let t := 0%Z in
  let lbl_width := (lbl_width * lines)%Z in
  if (lbl_width <=? 0)%Z then Some []
  else shorten_loop (length text + 3) new_text suffix t lbl_width.

End ShortenText.

End Libs.
(* ================================================================== *)
(** * Notions used in the statements *)
(* ================================================================== *)

(** What is left of a name after its leading run without upper-case
    letters. *)
Fixpoint skip_run (s : str) : str :=
  match s with
  | [] => []
  | c :: s' => if is_upper c then s else skip_run s'
  end.

(** [os.path.isdir] as a function of the tree. *)
Definition is_dir (p : path) (fs : node) : bool :=
  match lookup p fs with
  | Some (Dir _) => true
  | _ => false
  end.

(** The names [os.listdir(view)] reports that are directories. *)
Definition subdirectories (view : path) (fs : node) : list str :=
  match lookup view fs with
  | Some (Dir es) => filter (fun n => is_dir (view ++ [n]) fs) (map fst es)
  | _ => []
  end.

(** The filter of the registry body: at least two tokens, the last of which is
    [Screen]. *)
Definition is_screen_dir_name (name : str) : bool :=
  (2 <=? length (tokens name)) && str_eqb (last (tokens name) []) (py "Screen").

(** No name of a directory listing holds a path separator. *)
Definition plain_name (n : str) : bool := negb (existsb (Ascii.eqb slash) n).

(** The module name [main] derives from the tokens of a screen name
    ([add_view.py], line 112) and the registry key the synchronizer derives
    from them (line 168). *)
Definition moduleName (toks : list str) : str := join (py "_") (map lower toks).

Definition screenKey (toks : list str) : str := lower (join (py " ") toks).

(** One entry of the [screens] dictionary, with [q] the quote around the key
    and the field names. *)
Definition entry_text (q : ascii) (key model controller view kv : str) : str :=
  [nl] ++ py "    " ++ [q] ++ key ++ [q] ++ py ": {" ++ [nl] ++
  py "        " ++ [q] ++ py "model" ++ [q] ++ py ": " ++ model ++ py "," ++ [nl] ++
  py "        " ++ [q] ++ py "controller" ++ [q] ++ py ": " ++ controller ++
    py "," ++ [nl] ++
  py "        " ++ [q] ++ py "view" ++ [q] ++ py ": " ++ view ++ py "," ++ [nl] ++
  py "        " ++ [q] ++ py "kv" ++ [q] ++ py ": " ++ kv ++ [nl] ++
  py "    }," ++ [nl].

(** The entry of the screen directory [name], as the synchronizer writes
    it. *)
Definition registry_entry (name : str) : str :=
  entry_text sq
    (screenKey (tokens name))
    (name ++ py "Model") (name ++ py "Controller") (name ++ py "View")
    ([dq] ++ py "./View/" ++ name ++ py "/" ++ moduleName (tokens name) ++
     py ".kv" ++ [dq]).

(** One entry for every screen directory of the project's [View], in the
    order of the listing. *)
Definition registry_body (path_to_project : path) (fs : node) : str :=
  concat (map registry_entry
              (filter is_screen_dir_name
                      (subdirectories (path_to_project ++ [py "View"]) fs))).

(** The entry as the loop computes it, before the path is simplified. *)
Definition loop_entry (name : str) : str :=
  entry_text sq
    (screenKey (tokens name))
    (name ++ py "Model") (name ++ py "Controller") (name ++ py "View")
    ([dq] ++
     posixpath_join (py "./View")
       [name; lower (join (py "_") (tokens name)) ++ py ".kv"] ++ [dq]).

(** A token: one upper-case letter and then none. *)
Definition no_upper (s : str) : bool := forallb (fun c => negb (is_upper c)) s.

Definition is_token (t : str) : Prop :=
  exists c r, t = c :: r /\ is_upper c = true /\ no_upper r = true.

(** The registry module of a project. *)
Definition registry_path (path_to_project : path) : path :=
  path_to_project ++ [py "View"; py "screens.py"].

(** The text of the registry module: is there a file, and what it holds. *)
Definition registry_of (path_to_project : path) (fs : node) : option str :=
  match lookup (registry_path path_to_project) fs with
  | Some (File data) => Some data
  | _ => None
  end.

(** The three import lines of a screen. *)
Definition import_lines (name_view module_name : str) : list str :=
  [ py "from Model." ++ module_name ++ py " import " ++ name_view ++ py "Model";
    py "from Controller." ++ module_name ++ py " import " ++ name_view ++
      py "Controller";
    py "from View." ++ name_view ++ py "." ++ module_name ++ py " import " ++
      name_view ++ py "View" ].

(** The import list after the three lines of a screen are removed from it, one
    after the other; [None] when one of them is not found. *)
Definition remove_imports (name_view module_name : str) (imports : list str)
  : option (list str) :=
  fold_left (fun acc line =>
               match acc with
               | Some l => list_remove line l
               | None => None
               end)
            (import_lines name_view module_name) (Some imports).

(** The layout of the registry module: the comment and the import lines, a
    blank line, the dictionary with its entries, and what follows the closing
    brace. *)
Definition registry_text (comment : str) (imports : list str) (body : str)
           (tail : str) : str :=
  join [nl] (comment :: imports) ++ [nl; nl] ++
  py "screens = {" ++ body ++ [nl] ++ py "}" ++ tail.

(** The validation failures of the two entry points: the project is missing,
    the name does not end in [Screen], the screen is already there (or, to
    remove it, is not there), the name has fewer than two tokens. *)
Definition add_rejects (args : AddView.arguments) (fs : node) : Prop :=
  lookup (AddView.directory args) fs = None \/
  str_eqb (last_chars 6 (AddView.name args)) (py "Screen") = false \/
  (exists es,
      lookup (AddView.directory args ++ [py "View"]) fs = Some (Dir es) /\
      list_in (AddView.name args) (map fst es) = true) \/
  length (tokens (AddView.name args)) < 2.

Definition remove_rejects (args : RemoveView.arguments) (fs : node) : Prop :=
  lookup (RemoveView.directory args) fs = None \/
  str_eqb (last_chars 6 (RemoveView.name args)) (py "Screen") = false \/
  (exists es,
      lookup (RemoveView.directory args ++ [py "View"]) fs = Some (Dir es) /\
      list_in (RemoveView.name args) (map fst es) = false) \/
  length (tokens (RemoveView.name args)) < 2.

(** The module name [main] derives from a screen name ([add_view.py], lines
    106 to 112); [None] when the name is rejected. *)
Definition module_name_of (name_view : str) : option str :=
  match CreateProject.check_camel_case_name_project name_view with
  | None | Some [] => None
  | Some module_name => Some (join (py "_") (map lower module_name))
  end.

(** A screen name that passes the checks of [main]. *)
Definition passes_validation (name_view : str) : Prop :=
  last_chars 6 name_view = py "Screen" /\ 2 <= length (tokens name_view).





(** A project in the root directory [proj] with the given registry text and
    one directory per screen; the modules the registry does not depend on are
    left empty. *)
Definition project_with (registry : str) (screens : list str) : node :=
  Dir [ (py "proj",
         Dir [ (py "main.py", File (py "from kivymd.app import MDApp"));
               (py "Model", Dir [(py "base_model.py", File [])]);
               (py "Controller", Dir [(py "base_controller.py", File [])]);
               (py "View",
                 Dir (map (fun s => (s, Dir [(py "components", Dir [])])) screens
                      ++ [ (py "base_screen.py", File []);
                           (py "screens.py", File registry) ])) ]) ].

(** The project [create_project] sets up for the screen [MainScreen]. *)
Definition sample_registry : str :=
  match CreateProject.module_screens_text [py "MainScreen"] with
  | Some t => t
  | None => []
  end.

Definition sample_project : node :=
  project_with sample_registry [py "MainScreen"].

Definition add_screen (name : str) : AddView.arguments :=
  {| AddView.pattern := py "MVC";
     AddView.directory := [py "proj"];
     AddView.name := name;
     AddView.use_responsive := py "no";
     AddView.instantiate_responsive_view := py "yes" |}.

Definition remove_screen (name : str) : RemoveView.arguments :=
  {| RemoveView.pattern := py "MVC";
     RemoveView.directory := [py "proj"];
     RemoveView.name := name |}.

(** A registry for the screens Main, Settings and About from which the import
    of the Settings controller was deleted by hand. *)
Definition edited_registry : str :=
  registry_text RemoveView.screens_comment
    (import_lines (py "MainScreen") (py "main_screen") ++
     [ py "from Model.settings_screen import SettingsScreenModel";
       py "from View.SettingsScreen.settings_screen import SettingsScreenView" ] ++
     import_lines (py "AboutScreen") (py "about_screen"))
    (concat (map registry_entry
               [py "MainScreen"; py "SettingsScreen"; py "AboutScreen"]))
    [].

Definition edited_project : node :=
  project_with edited_registry
    [py "MainScreen"; py "SettingsScreen"; py "AboutScreen"].

(** What a path leads to, content apart: nothing, a file, or a directory with
    the names of its entries. *)
Definition shape (r : path) (fs : node) : option (option (list str)) :=
  match lookup r fs with
  | Some (Dir es) => Some (Some (map fst es))
  | Some (File _) => Some None
  | None => None
  end.

(** The test of [main] in [add_view.py] and [remove_view.py] on the screen
    name: the last six characters and the result of
    [check_camel_case_name_project]. *)
Definition main_accepts (name_view : str) : bool :=
  str_eqb (last_chars 6 name_view) (py "Screen") &&
  match CreateProject.check_camel_case_name_project name_view with
  | None | Some [] => false
  | Some _ => true
  end.

(** Has a string an underscore. *)
Definition has_underscore (s : str) : bool := existsb (Ascii.eqb underscore) s.

(** A computation keeps what is found at [q]; and it keeps it at least when
    it ends in an error. *)
Definition keeps {A} (q : path) (m : M A) : Prop :=
  forall fs, lookup q (snd (m fs)) = lookup q fs.




(** The sample project after [FooScreen] was added to it. *)
Definition project_with_foo : node :=
  snd (AddView.main (add_screen (py "FooScreen")) sample_project).



(** The dictionary has the key. *)
Definition has_key (key : str) (d : Libs.dict) : bool :=
  match Libs.getitem d key with Some _ => true | None => false end.

(** The dictionary has the key, with another value. *)
Definition other_value (key value : str) (d : Libs.dict) : bool :=
  match Libs.getitem d key with
  | Some v => negb (str_eqb v value)
  | None => false
  end.

(** The dictionary has the key, and the term occurs in its value. *)
Definition value_contains (search_term data_key : str) (d : Libs.dict) : bool :=
  match Libs.getitem d data_key with
  | Some v => str_in search_term v
  | None => false
  end.

(** [pre] is [text] cut at its end, before one of its spaces, or to
    nothing. *)
Definition cut_at_space (text pre : str) : Prop :=
  exists rest,
    text = pre ++ rest /\
    (pre = [] \/ rest = [] \/ exists rest', rest = " "%char :: rest').



(** The loop of [create_project.main] over the names of [--name_screen]:
    every name is checked and its modules are created before the next name
    is looked at.  The globals are those that collect the registry; the data
    collected for the Makefile when [--use_localization] is [yes], a string
    that no step of the loop reads, is left out. *)
Fixpoint creation_loop (name_screen : list str)
         (name_database use_hotreload : str) (use_responsive : list str)
         (instantiate_responsive_view : str) (path_to_project : path)
         (g : CreateProject.globals) : M CreateProject.globals :=
  match name_screen with
  | [] => ret g
  | name :: rest =>
      module_name <-
        match CreateProject.check_camel_case_name_project name with
        | None | Some [] => parser_error
        | Some module_name => ret module_name
        end ;;
      let module_name := join (py "_") (map lower module_name) in
      CreateProject.create_model name module_name name_database
                                 path_to_project ;;;
      CreateProject.create_controller name module_name use_hotreload
                                      path_to_project ;;;
      g' <- or_raise TypeError
              (CreateProject.create_screens_data name module_name g) ;;
      CreateProject.create_view instantiate_responsive_view name module_name
                                use_responsive path_to_project ;;;
      creation_loop rest name_database use_hotreload use_responsive
                    instantiate_responsive_view path_to_project g'
  end.

(** The result of a run, or [g] when it failed. *)
Definition result_or {A} (g : A) (r : (exn + A) * node) : A :=
  match fst r with inr a => a | inl _ => g end.
(* ================================================================== *)
(** * Strings: basic facts *)
(* ================================================================== *)

Lemma str_eqb_eq (a b : str) : str_eqb a b = true <-> a = b.
Proof.
  revert b; induction a as [|x a IH]; intros [|y b]; simpl;
    try (split; (discriminate || reflexivity)).
  rewrite andb_true_iff, Ascii.eqb_eq, IH.
  split; [intros [-> ->]; reflexivity | intros [= -> ->]; auto].
Qed.

Lemma str_eqb_refl (a : str) : str_eqb a a = true.
Proof. apply str_eqb_eq; reflexivity. Qed.

Lemma startswith_app (m t : str) : startswith m (m ++ t) = true.
Proof.
  induction m as [|c m IH]; simpl; [reflexivity|].
  rewrite Ascii.eqb_refl; exact IH.
Qed.

Lemma str_in_unfold (m t : str) :
  str_in m t =
  startswith m t || match t with [] => false | _ :: t' => str_in m t' end.
Proof. destruct t; reflexivity. Qed.

Lemma str_in_infix (m a b : str) : str_in m (a ++ m ++ b) = true.
Proof.
  induction a as [|c a IH].
  - simpl app. rewrite str_in_unfold, startswith_app. reflexivity.
  - simpl. rewrite IH; apply orb_true_r.
Qed.

(* ================================================================== *)
(** * The tokenizer *)
(* ================================================================== *)

Lemma split_upper_run (s : str) : fst (split_upper s) ++ skip_run s = s.
Proof.
  induction s as [|c s IH]; simpl; [reflexivity|].
  destruct (split_upper s) as [run toks]; simpl in *.
  destruct (is_upper c); simpl; congruence.
Qed.

Lemma tokens_skip_run (s : str) : tokens (skip_run s) = tokens s.
Proof.
  unfold tokens.
  induction s as [|c s IH]; [reflexivity|].
  cbn [skip_run]. destruct (is_upper c) eqn:E; [reflexivity|].
  rewrite IH. simpl. rewrite E. destruct (split_upper s); reflexivity.
Qed.

Lemma tokens_upper (c : ascii) (s : str) :
  is_upper c = true ->
  tokens (c :: s) = (c :: fst (split_upper s)) :: tokens s.
Proof.
  unfold tokens; simpl; intros ->. destruct (split_upper s); reflexivity.
Qed.

Lemma tokens_not_upper (c : ascii) (s : str) :
  is_upper c = false -> tokens (c :: s) = tokens s.
Proof.
  unfold tokens; simpl; intros ->. destruct (split_upper s); reflexivity.
Qed.

Lemma skip_run_length (s : str) : length (skip_run s) <= length s.
Proof.
  induction s as [|c s IH]; simpl; [lia|].
  destruct (is_upper c); simpl; lia.
Qed.

Lemma star_not_upper (n : nat) (s : str) :
  length s <= n ->
  star_loop (rmatch (NotRange "A" "Z")) (fun rest => Some rest) n s
  = Some (skip_run s).
Proof.
  revert s; induction n as [|n IH]; intros [|c s] Hlen; simpl in *;
    try reflexivity; try lia.
  fold (is_upper c). destruct (is_upper c) eqn:E; simpl; [reflexivity|].
  assert (Hlt : (length s <? S (length s)) = true) by (apply Nat.ltb_lt; lia).
  rewrite Hlt, IH by lia. reflexivity.
Qed.

Lemma match_here_camel (s : str) :
  match_here camel_pattern s =
  match s with
  | c :: s' => if is_upper c then Some (skip_run s') else None
  | [] => None
  end.
Proof.
  destruct s as [|c s]; [reflexivity|].
  unfold match_here, camel_pattern; simpl. fold (is_upper c).
  destruct (is_upper c); [|reflexivity].
  apply star_not_upper; lia.
Qed.

Lemma findall_from_camel (n : nat) (s : str) :
  length s < n -> findall_from n camel_pattern s = tokens s.
Proof.
  revert s; induction n as [|n IH]; intros s Hlen; [lia|].
  cbn [findall_from]. rewrite match_here_camel.
  destruct s as [|c s]; [reflexivity|]. simpl in Hlen.
  destruct (is_upper c) eqn:E.
  - pose proof (skip_run_length s) as Hs.
    assert (Hl : length s = length (fst (split_upper s)) + length (skip_run s))
      by (rewrite <- length_app, split_upper_run; reflexivity).
    assert (Hlt : (length (skip_run s) <? length (c :: s)) = true)
      by (apply Nat.ltb_lt; simpl; lia).
    rewrite Hlt, IH by lia.
    rewrite tokens_skip_run, (tokens_upper c s E). f_equal.
    replace (length (c :: s) - length (skip_run s))
      with (S (length (fst (split_upper s)))) by (cbn [length]; lia).
    simpl. f_equal.
    transitivity (firstn (length (fst (split_upper s)))
                         (fst (split_upper s) ++ skip_run s)).
    + rewrite split_upper_run; reflexivity.
    + rewrite firstn_app, Nat.sub_diag, firstn_all. simpl. apply app_nil_r.
  - rewrite IH by lia. symmetry; apply tokens_not_upper; exact E.
Qed.

Lemma re_findall_camel (s : str) : re_findall camel_pattern s = tokens s.
Proof. apply findall_from_camel; lia. Qed.

(* ================================================================== *)
(** * Computations: unfolding lemmas *)
(* ================================================================== *)

Lemma bind_ret {A B} (a : A) (f : A -> M B) (fs : node) :
  bind (ret a) f fs = f a fs.
Proof. reflexivity. Qed.

Lemma bind_query {A B} (q : node -> exn + A) (f : A -> M B) (fs : node) :
  bind (query q) f fs =
  match q fs with
  | inr a => f a fs
  | inl e => (inl e, fs)
  end.
Proof. unfold bind, query. destruct (q fs); reflexivity. Qed.

Lemma bind_or_raise {A B} (e : exn) (o : option A) (f : A -> M B) (fs : node) :
  bind (or_raise e o) f fs =
  match o with
  | Some a => f a fs
  | None => (inl e, fs)
  end.
Proof. destruct o; reflexivity. Qed.

Lemma bind_isdir {B} (p : path) (f : bool -> M B) (fs : node) :
  bind (os_path_isdir p) f fs = f (is_dir p fs) fs.
Proof. reflexivity. Qed.

(* ================================================================== *)
(** * The body of the registry *)
(* ================================================================== *)

Lemma percent_entry_add (key model controller view kv : str) :
  percent AddView.entry_template [key; model; controller; view; kv]
  = Some (entry_text sq key model controller view kv).
Proof. reflexivity. Qed.

Lemma percent_entry_remove (key model controller view kv : str) :
  percent RemoveView.entry_template [key; model; controller; view; kv]
  = Some (entry_text sq key model controller view kv).
Proof. reflexivity. Qed.

Lemma percent_entry_create (key model controller view kv : str) :
  percent CreateProject.entry_template
          [[dq] ++ key ++ [dq]; model; controller; view; kv]
  = Some (entry_text dq key model controller view kv).
Proof.
  unfold entry_text. cbn. rewrite <- app_assoc. reflexivity.
Qed.

(** The test of the loop is the filter of the body. *)
Lemma loop_test (name : str) :
  (match re_findall camel_pattern name with [] => false | _ => true end)
  && (1 <? length (re_findall camel_pattern name))
  && str_eqb (last (re_findall camel_pattern name) []) (py "Screen")
  = is_screen_dir_name name.
Proof.
  rewrite re_findall_camel. unfold is_screen_dir_name.
  destruct (tokens name) as [|t [|t' l]]; reflexivity.
Qed.

Lemma add_screens_loop (pv : path) (names : list str) (acc : str) (fs : node) :
  AddView.screens_loop pv names acc fs =
  (inr (acc ++ concat (map loop_entry
                           (filter is_screen_dir_name
                              (filter (fun n => is_dir (pv ++ [n]) fs) names)))),
   fs).
Proof.
  revert acc; induction names as [|name names IH]; intros acc.
  - simpl. rewrite app_nil_r. reflexivity.
  - cbn [AddView.screens_loop filter]. rewrite bind_isdir.
    destruct (is_dir (pv ++ [name]) fs); [|apply IH].
    rewrite loop_test. cbn [filter].
    destruct (is_screen_dir_name name); [|apply IH].
    rewrite percent_entry_add. cbn [or_raise]. rewrite bind_ret, IH.
    rewrite re_findall_camel. cbn [map concat]. rewrite <- app_assoc.
    reflexivity.
Qed.

Lemma screens_loop_same (pv : path) (names : list str) (acc : str) (fs : node) :
  AddView.screens_loop pv names acc fs = RemoveView.screens_loop pv names acc fs.
Proof.
  revert acc fs; induction names as [|name names IH]; intros acc fs;
    [reflexivity|].
  cbn [AddView.screens_loop RemoveView.screens_loop]. rewrite !bind_isdir.
  destruct (is_dir (pv ++ [name]) fs); [|apply IH].
  destruct (_ && _); [|apply IH].
  rewrite percent_entry_add, percent_entry_remove. cbn [or_raise].
  rewrite !bind_ret. apply IH.
Qed.

(* ================================================================== *)
(** * Tokens, lower case and the layout path *)
(* ================================================================== *)

Lemma split_upper_shape (s : str) :
  no_upper (fst (split_upper s)) = true /\
  Forall is_token (tokens s) /\
  fst (split_upper s) ++ concat (tokens s) = s.
Proof.
  unfold tokens. induction s as [|c s (Hrun & Htok & Hcat)]; simpl.
  - repeat split; constructor.
  - destruct (split_upper s) as [run toks]; simpl in *.
    destruct (is_upper c) eqn:E; simpl.
    + repeat split.
      * constructor; [exists c, run; auto | exact Htok].
      * f_equal. exact Hcat.
    + rewrite E. simpl. repeat split; auto. f_equal. exact Hcat.
Qed.

Lemma lower_app (a b : str) : lower (a ++ b) = lower a ++ lower b.
Proof. apply map_app. Qed.

Lemma lower_join (sep : str) (l : list str) :
  lower (join sep l) = join (lower sep) (map lower l).
Proof.
  induction l as [|a [|b l] IH]; try reflexivity.
  change (join sep (a :: b :: l)) with (a ++ sep ++ join sep (b :: l)).
  rewrite !lower_app, IH. reflexivity.
Qed.

Lemma screenKey_join (toks : list str) :
  screenKey toks = join (py " ") (map lower toks).
Proof. unfold screenKey. rewrite lower_join. reflexivity. Qed.

Lemma moduleName_lower_join (toks : list str) :
  lower (join (py "_") toks) = moduleName toks.
Proof. unfold moduleName. rewrite lower_join. reflexivity. Qed.

Lemma lower_char_not_slash (c : ascii) :
  is_upper c = true -> Ascii.eqb slash (lower_char c) = false.
Proof.
  destruct c as [[] [] [] [] [] [] [] []]; vm_compute; congruence.
Qed.

Lemma moduleName_not_absolute (toks : list str) (suffix : str) :
  Forall is_token toks -> toks <> [] ->
  startswith [slash] (moduleName toks ++ suffix) = false.
Proof.
  intros Htok Hne. destruct toks as [|t toks]; [congruence|].
  inversion Htok as [|? ? (c & r & Ht & Hc & _) _]; subst.
  unfold moduleName.
  destruct toks; cbn [map join lower app startswith];
    rewrite (lower_char_not_slash c Hc); reflexivity.
Qed.

Lemma plain_name_head (c : ascii) (s : str) :
  plain_name (c :: s) = true -> startswith [slash] (c :: s) = false.
Proof.
  unfold plain_name; simpl. rewrite negb_true_iff, orb_false_iff.
  intros [H _]. rewrite H. reflexivity.
Qed.

Lemma plain_name_last (a s : str) :
  s <> [] -> plain_name s = true -> endswith [slash] (a ++ s) = false.
Proof.
  intros Hne Hplain.
  destruct (exists_last Hne) as (s' & x & ->).
  unfold plain_name in Hplain.
  rewrite existsb_app, negb_true_iff, orb_false_iff in Hplain.
  destruct Hplain as [_ Hx]. simpl in Hx. rewrite orb_false_r in Hx.
  unfold endswith. rewrite app_assoc, rev_app_distr. simpl. rewrite Hx.
  reflexivity.
Qed.

Lemma posix_join_step_plain (path b : str) :
  startswith [slash] b = false -> path <> [] ->
  endswith [slash] path = false ->
  posix_join_step path b = path ++ [slash] ++ b.
Proof.
  intros Hb Hne He. unfold posix_join_step. rewrite Hb, He.
  destruct path; [congruence | reflexivity].
Qed.

Lemma kv_path (name : str) :
  plain_name name = true -> is_screen_dir_name name = true ->
  posixpath_join (py "./View")
    [name; lower (join (py "_") (tokens name)) ++ py ".kv"]
  = py "./View/" ++ name ++ py "/" ++ moduleName (tokens name) ++ py ".kv".
Proof.
  intros Hplain Hscreen.
  assert (Htoks : tokens name <> []).
  { unfold is_screen_dir_name in Hscreen.
    destruct (tokens name); [discriminate | congruence]. }
  assert (Hname : name <> []).
  { intros ->. apply Htoks. reflexivity. }
  rewrite moduleName_lower_join.
  unfold posixpath_join. cbn [fold_left].
  destruct name as [|c name]; [congruence|].
  rewrite (posix_join_step_plain (py "./View") (c :: name));
    [| apply plain_name_head; exact Hplain | discriminate | reflexivity].
  rewrite posix_join_step_plain.
  - cbn [py list_ascii_of_string app]. reflexivity.
  - apply moduleName_not_absolute; [apply (split_upper_shape (c :: name)) | exact Htoks].
  - discriminate.
  - rewrite app_assoc. apply plain_name_last; [discriminate | exact Hplain].
Qed.

Lemma loop_entry_registry_entry (name : str) :
  plain_name name = true -> is_screen_dir_name name = true ->
  loop_entry name = registry_entry name.
Proof.
  intros Hplain Hscreen. unfold loop_entry, registry_entry.
  rewrite kv_path by assumption. f_equal.
  rewrite <- !app_assoc. reflexivity.
Qed.

(* ================================================================== *)
(** * The file system: lookups after a change *)
(* ================================================================== *)

Lemma assoc_set_entry_same (x : str) (c : node) (es : list (str * node)) :
  assoc x (set_entry x c es) = Some c.
Proof.
  induction es as [|[y d] es IH]; simpl.
  - rewrite str_eqb_refl; reflexivity.
  - destruct (str_eqb x y) eqn:E; simpl.
    + rewrite str_eqb_refl; reflexivity.
    + rewrite E; exact IH.
Qed.

Lemma assoc_set_entry_other (x y : str) (c : node) (es : list (str * node)) :
  str_eqb y x = false -> assoc y (set_entry x c es) = assoc y es.
Proof.
  intros Hyx. induction es as [|[z d] es IH]; simpl.
  - rewrite Hyx; reflexivity.
  - destruct (str_eqb x z) eqn:E; simpl.
    + apply str_eqb_eq in E; subst z. rewrite Hyx; reflexivity.
    + destruct (str_eqb y z); [reflexivity | exact IH].
Qed.

Lemma assoc_del_entry_same (x : str) (es : list (str * node)) :
  assoc x (del_entry x es) = None.
Proof.
  induction es as [|[y d] es IH]; simpl; [reflexivity|].
  destruct (str_eqb x y) eqn:E; simpl; [exact IH|].
  rewrite E; exact IH.
Qed.

Lemma assoc_del_entry_other (x y : str) (es : list (str * node)) :
  str_eqb y x = false -> assoc y (del_entry x es) = assoc y es.
Proof.
  intros Hyx. induction es as [|[z d] es IH]; simpl; [reflexivity|].
  destruct (str_eqb x z) eqn:E; simpl.
  - apply str_eqb_eq in E; subst z. rewrite Hyx; exact IH.
  - destruct (str_eqb y z); [reflexivity | exact IH].
Qed.

Lemma fs_update_deeper (f : option node -> exn + option node)
      (x y : str) (q : path) (es : list (str * node)) :
  fs_update f (x :: y :: q) (Dir es) =
  match assoc x es with
  | None => inl FileNotFoundError
  | Some d =>
      match fs_update f (y :: q) d with
      | inl e => inl e
      | inr d' => inr (Dir (set_entry x d' es))
      end
  end.
Proof. reflexivity. Qed.

(** Writing a file that exists succeeds and stores the text. *)
Lemma write_existing_file (data old : str) (q : path) (fs : node) :
  lookup q fs = Some (File old) -> q <> [] ->
  exists fs',
    write_file q data fs = (inr tt, fs') /\
    lookup q fs' = Some (File data).
Proof.
  unfold write_file, change.
  revert fs; induction q as [|x q IH]; intros fs Hlook Hne; [congruence|].
  destruct fs as [|es]; [discriminate|]. simpl in Hlook.
  destruct (assoc x es) as [c|] eqn:Hx; [|discriminate].
  destruct q as [|y q].
  - simpl in Hlook. injection Hlook as ->. simpl. rewrite Hx.
    eexists; split; [reflexivity|]. simpl.
    rewrite assoc_set_entry_same; reflexivity.
  - destruct (IH c Hlook ltac:(discriminate)) as (c' & Hw & Hl).
    rewrite fs_update_deeper, Hx.
    destruct (fs_update _ (y :: q) c) as [e|c''] eqn:Hu; [discriminate|].
    injection Hw as ->.
    eexists; split; [reflexivity|].
    cbn [lookup]. rewrite assoc_set_entry_same. exact Hl.
Qed.

(** A change at one entry of a directory leaves the other entries of that
    directory as they were. *)
Lemma fs_update_sibling (f : option node -> exn + option node)
      (pre : path) (x y : str) (q : path) (n n' : node) :
  fs_update f (pre ++ [x]) n = inr n' ->
  str_eqb y x = false ->
  lookup (pre ++ y :: q) n' = lookup (pre ++ y :: q) n.
Proof.
  intros Hu Hyx. revert n n' Hu.
  induction pre as [|z pre IH]; intros n n' Hu.
  - simpl in Hu. destruct n as [|es]; [discriminate|].
    destruct (f (assoc x es)) as [e|[c|]]; [discriminate| |];
      injection Hu as <-; simpl.
    + rewrite assoc_set_entry_other by exact Hyx. reflexivity.
    + rewrite assoc_del_entry_other by exact Hyx. reflexivity.
  - cbn [app fs_update] in Hu. destruct n as [|es]; [discriminate|].
    destruct (pre ++ [x]) as [|w l] eqn:Hp;
      [destruct pre; discriminate|].
    destruct (assoc z es) as [d|] eqn:Hz; [|discriminate].
    destruct (fs_update f (w :: l) d) as [e|d'] eqn:Hd; [discriminate|].
    injection Hu as <-. cbn [app lookup].
    rewrite assoc_set_entry_same, Hz. apply IH. exact Hd.
Qed.

(** Once an entry is dropped, every change below it finds nothing. *)
Lemma fs_update_below_dropped (f g : option node -> exn + option node)
      (pre : path) (x : str) (q : path) (n n' : node) :
  (forall e r, f e = inr r -> r = None) ->
  fs_update f (pre ++ [x]) n = inr n' ->
  q <> [] ->
  fs_update g (pre ++ x :: q) n' = inl FileNotFoundError.
Proof.
  intros Hf Hu Hq. revert n n' Hu.
  induction pre as [|z pre IH]; intros n n' Hu.
  - simpl in Hu. destruct n as [|es]; [discriminate|].
    destruct (f (assoc x es)) as [e|r] eqn:Hfx; [discriminate|].
    rewrite (Hf _ _ Hfx) in Hu. injection Hu as <-.
    destruct q as [|y q]; [congruence|].
    cbn [app fs_update]. rewrite assoc_del_entry_same. reflexivity.
  - cbn [app fs_update] in Hu. destruct n as [|es]; [discriminate|].
    destruct (pre ++ [x]) as [|w l] eqn:Hp;
      [destruct pre; discriminate|].
    destruct (assoc z es) as [d|] eqn:Hz; [|discriminate].
    destruct (fs_update f (w :: l) d) as [e|d'] eqn:Hd; [discriminate|].
    injection Hu as <-. cbn [app fs_update].
    destruct (pre ++ x :: q) as [|w' l'] eqn:Hp';
      [destruct pre; discriminate|].
    rewrite assoc_set_entry_same, (IH d d' Hd). reflexivity.
Qed.

Lemma set_entry_names (x : str) (c d : node) (es : list (str * node)) :
  assoc x es = Some d -> map fst (set_entry x c es) = map fst es.
Proof.
  induction es as [|[y e] es IH]; simpl; [discriminate|].
  destruct (str_eqb x y) eqn:E; simpl.
  - apply str_eqb_eq in E; subst y. reflexivity.
  - intros H. rewrite (IH H). reflexivity.
Qed.

Lemma shape_file (r : path) (a b : str) : shape r (File a) = shape r (File b).
Proof. destruct r; reflexivity. Qed.

(** Rewriting a file changes no listing and no kind of node. *)
Lemma write_existing_file_shape (data old : str) (q : path) :
  forall (fs fs' : node) (r : path),
    lookup q fs = Some (File old) ->
    write_file q data fs = (inr tt, fs') ->
    shape r fs' = shape r fs.
Proof.
  unfold write_file, change.
  induction q as [|x q IH]; intros fs fs' r Hlook Hw; [discriminate|].
  destruct fs as [|es]; [discriminate|]. simpl in Hlook.
  destruct (assoc x es) as [c|] eqn:Hx; [|discriminate].
  assert (Hstep : forall c',
             (forall r', shape r' c' = shape r' c) ->
             shape r (Dir (set_entry x c' es)) = shape r (Dir es)).
  { intros c' Hc. unfold shape. destruct r as [|y r]; simpl.
    - rewrite (set_entry_names x c' c es Hx). reflexivity.
    - destruct (str_eqb y x) eqn:E.
      + apply str_eqb_eq in E; subst y.
        rewrite assoc_set_entry_same, Hx. apply (Hc r).
      + rewrite assoc_set_entry_other by exact E. reflexivity. }
  destruct q as [|y q].
  - simpl in Hlook. injection Hlook as ->. simpl in Hw. rewrite Hx in Hw.
    injection Hw as <-. apply Hstep. intros r'. apply shape_file.
  - rewrite fs_update_deeper, Hx in Hw.
    destruct (fs_update _ (y :: q) c) as [e|c'] eqn:Hu; [discriminate|].
    injection Hw as <-. apply Hstep. intros r'.
    apply (IH c c' r' Hlook). rewrite Hu. reflexivity.
Qed.

Lemma subdirectories_shape (view : path) (fs fs' : node) :
  (forall r, shape r fs' = shape r fs) ->
  subdirectories view fs' = subdirectories view fs.
Proof.
  intros H. unfold subdirectories.
  assert (Hdir : forall r, is_dir r fs' = is_dir r fs).
  { intros r. specialize (H r). unfold shape, is_dir in *.
    destruct (lookup r fs') as [[|]|], (lookup r fs) as [[|]|];
      congruence. }
  pose proof (H view) as Hv. unfold shape in Hv.
  destruct (lookup view fs') as [[d'|es']|], (lookup view fs) as [[d|es]|];
    try congruence.
  injection Hv as Hv. rewrite Hv. apply filter_ext. intros n. apply Hdir.
Qed.

(* ================================================================== *)
(** * What [update_screens_data] writes *)
(* ================================================================== *)

Lemma bind_read_file {B} (q : path) (data : str) (f : str -> M B) (fs : node) :
  lookup q fs = Some (File data) -> bind (read_file q) f fs = f data fs.
Proof. intros H. unfold read_file. rewrite bind_query, H. reflexivity. Qed.

Lemma bind_listdir {B} (q : path) (es : list (str * node))
      (f : list str -> M B) (fs : node) :
  lookup q fs = Some (Dir es) -> bind (os_listdir q) f fs = f (map fst es) fs.
Proof. intros H. unfold os_listdir. rewrite bind_query, H. reflexivity. Qed.

Lemma bind_add_loop {B} (pv : path) (names : list str) (f : str -> M B)
      (fs : node) :
  bind (AddView.screens_loop pv names []) f fs =
  f (concat (map loop_entry
               (filter is_screen_dir_name
                  (filter (fun n => is_dir (pv ++ [n]) fs) names)))) fs.
Proof. unfold bind. rewrite add_screens_loop. reflexivity. Qed.

Lemma bind_remove_loop {B} (pv : path) (names : list str) (f : str -> M B)
      (fs : node) :
  bind (RemoveView.screens_loop pv names []) f fs =
  f (concat (map loop_entry
               (filter is_screen_dir_name
                  (filter (fun n => is_dir (pv ++ [n]) fs) names)))) fs.
Proof.
  unfold bind. rewrite <- screens_loop_same, add_screens_loop. reflexivity.
Qed.

Lemma percent_screens_data_add (imports body : str) :
  percent AddView.screens_data [imports; body] =
  Some (imports ++ [nl; nl] ++ py "screens = {" ++ body ++ [nl] ++ py "}" ++ [nl]).
Proof. reflexivity. Qed.

Lemma percent_screens_data_remove (imports body : str) :
  percent RemoveView.screens_data [imports; body] =
  Some (imports ++ [nl; nl] ++ py "screens = {" ++ body ++ [nl] ++ py "}" ++ []).
Proof. reflexivity. Qed.

Lemma registry_path_app (p : path) :
  p ++ [py "View"; py "screens.py"] = registry_path p.
Proof. reflexivity. Qed.

Lemma registry_path_not_nil (p : path) : registry_path p <> [].
Proof. unfold registry_path. destruct p; discriminate. Qed.

(** With plain names in the listing, the loop's entries are the registry
    entries. *)
Lemma loop_body_registry_body (p : path) (fs : node) (es : list (str * node)) :
  lookup (p ++ [py "View"]) fs = Some (Dir es) ->
  forallb plain_name (map fst es) = true ->
  concat (map loop_entry
            (filter is_screen_dir_name
               (filter (fun n => is_dir ((p ++ [py "View"]) ++ [n]) fs)
                       (map fst es))))
  = registry_body p fs.
Proof.
  intros Hview Hplain. unfold registry_body, subdirectories. rewrite Hview.
  f_equal. apply map_ext_in. intros n Hn.
  apply filter_In in Hn as [Hn Hs]. apply filter_In in Hn as [Hn _].
  apply loop_entry_registry_entry; [|exact Hs].
  rewrite forallb_forall in Hplain. apply Hplain, Hn.
Qed.

(** A write of the registry: it succeeds, stores the text and leaves the
    screen directories as they are. *)
Lemma registry_written (p : path) (fs : node) (old data : str) :
  lookup (registry_path p) fs = Some (File old) ->
  exists fs',
    write_file (registry_path p) data fs = (inr tt, fs') /\
    registry_of p fs' = Some data /\
    registry_body p fs' = registry_body p fs.
Proof.
  intros Hreg.
  destruct (write_existing_file data old (registry_path p) fs Hreg
              (registry_path_not_nil p)) as (fs' & Hw & Hl).
  exists fs'. split; [exact Hw|]. split.
  - unfold registry_of. rewrite Hl. reflexivity.
  - unfold registry_body.
    rewrite (subdirectories_shape (p ++ [py "View"]) fs fs'); [reflexivity|].
    intros r.
    apply (write_existing_file_shape data old (registry_path p) fs fs' r Hreg Hw).
Qed.

Lemma add_update_screens_data_run (name_view module_name : str) (p : path)
      (fs : node) (old : str) (es : list (str * node)) :
  lookup (registry_path p) fs = Some (File old) ->
  lookup (p ++ [py "View"]) fs = Some (Dir es) ->
  forallb plain_name (map fst es) = true ->
  AddView.update_screens_data name_view module_name p fs =
  write_file (registry_path p)
    (registry_text AddView.screns_comment
       (re_findall imports_pattern old ++ import_lines name_view module_name)
       (registry_body p fs) [nl]) fs.
Proof.
  intros Hreg Hview Hplain.
  unfold AddView.update_screens_data. rewrite !registry_path_app.
  rewrite (bind_read_file _ old _ _ Hreg). cbv zeta.
  rewrite (bind_listdir _ es _ _ Hview), bind_add_loop.
  rewrite (loop_body_registry_body p fs es Hview Hplain).
  rewrite percent_screens_data_add. cbn [or_raise]. rewrite bind_ret.
  f_equal. unfold registry_text, import_lines.
  rewrite <- !app_assoc. reflexivity.
Qed.

Lemma add_update_screens_data_writes (name_view module_name : str) (p : path)
      (fs : node) (old : str) (es : list (str * node)) :
  lookup (registry_path p) fs = Some (File old) ->
  lookup (p ++ [py "View"]) fs = Some (Dir es) ->
  forallb plain_name (map fst es) = true ->
  exists fs',
    AddView.update_screens_data name_view module_name p fs = (inr tt, fs') /\
    registry_of p fs' =
    Some (registry_text AddView.screns_comment
            (re_findall imports_pattern old ++
             import_lines name_view module_name)
            (registry_body p fs') [nl]).
Proof.
  intros Hreg Hview Hplain.
  rewrite (add_update_screens_data_run name_view module_name p fs old es
             Hreg Hview Hplain).
  destruct (registry_written p fs old
              (registry_text AddView.screns_comment
                 (re_findall imports_pattern old ++
                  import_lines name_view module_name)
                 (registry_body p fs) [nl]) Hreg) as (fs' & Hw & Hr & Hb).
  exists fs'. rewrite Hb. split; assumption.
Qed.

(* ================================================================== *)
(** * Every match of [re.findall] occurs in the text *)
(* ================================================================== *)

Lemma star_loop_suffix (body : str -> (str -> option str) -> option str)
      (k : str -> option str) :
  (forall s k' x, body s k' = Some x ->
                  exists rest, (exists pre, s = pre ++ rest) /\ k' rest = Some x) ->
  forall n s x,
    star_loop body k n s = Some x ->
    exists rest, (exists pre, s = pre ++ rest) /\ k rest = Some x.
Proof.
  intros Hbody. induction n as [|n IH]; intros s x H; simpl in H.
  - exists s; split; [exists []; reflexivity | exact H].
  - destruct (body s _) as [y|] eqn:Hb.
    + injection H as ->.
      apply Hbody in Hb as (rest & (pre & ->) & Hk).
      destruct (length rest <? length (pre ++ rest)); [|discriminate].
      apply IH in Hk as (rest' & (pre' & ->) & Hk).
      exists rest'; split; [|exact Hk].
      exists (pre ++ pre'). rewrite app_assoc; reflexivity.
    + exists s; split; [exists []; reflexivity | exact H].
Qed.

Lemma rmatch_suffix (r : regex) :
  forall s k x,
    rmatch r s k = Some x ->
    exists rest, (exists pre, s = pre ++ rest) /\ k rest = Some x.
Proof.
  assert (Hchar : forall r' s (k : str -> option str) x,
             match s with
             | c :: s' => if char_matches r' c then k s' else None
             | [] => None
             end = Some x ->
             exists rest, (exists pre, s = pre ++ rest) /\ k rest = Some x).
  { intros r' [|c s] k x H; [discriminate|].
    destruct (char_matches r' c); [|discriminate].
    exists s; split; [exists [c]; reflexivity | exact H]. }
  induction r as [| c | | lo hi | lo hi | r1 IH1 r2 IH2 | r1 IH1 r2 IH2 | r1 IH1];
    intros s k x H; simpl in H.
  - exists s; split; [exists []; reflexivity | exact H].
  - apply (Hchar (Lit c)); exact H.
  - apply (Hchar Dot); exact H.
  - apply (Hchar (Range lo hi)); exact H.
  - apply (Hchar (NotRange lo hi)); exact H.
  - apply IH1 in H as (rest1 & (pre1 & ->) & H).
    apply IH2 in H as (rest2 & (pre2 & ->) & H).
    exists rest2; split; [|exact H].
    exists (pre1 ++ pre2). rewrite app_assoc; reflexivity.
  - destruct (rmatch r1 s k) as [y|] eqn:H1.
    + injection H as ->. apply IH1; exact H1.
    + apply IH2; exact H.
  - eapply star_loop_suffix; [exact IH1 | exact H].
Qed.

Lemma match_here_split (r : regex) (s rest : str) :
  match_here r s = Some rest ->
  firstn (length s - length rest) s ++ rest = s.
Proof.
  intros H. apply rmatch_suffix in H as (rest' & (pre & ->) & [= ->]).
  rewrite length_app, Nat.add_sub, firstn_app, Nat.sub_diag, firstn_all.
  simpl. rewrite app_nil_r. reflexivity.
Qed.

Lemma findall_from_infix (r : regex) (n : nat) :
  forall s x, In x (findall_from n r s) -> exists a b, s = a ++ x ++ b.
Proof.
  induction n as [|n IH]; intros s x H; simpl in H; [contradiction|].
  assert (Hskip : In x match s with [] => [] | _ :: s' => findall_from n r s' end ->
                  exists a b, s = a ++ x ++ b).
  { destruct s as [|c s]; [contradiction|]. intros Hin.
    apply IH in Hin as (a & b & ->). exists (c :: a), b. reflexivity. }
  destruct (match_here r s) as [rest|] eqn:Hm; [|auto].
  pose proof (match_here_split r s rest Hm) as Hs.
  destruct H as [<- | H].
  - exists [], rest. symmetry; exact Hs.
  - destruct (length rest <? length s); [|auto].
    apply IH in H as (a & b & Hr).
    exists (firstn (length s - length rest) s ++ a), b.
    rewrite <- app_assoc, <- Hr. symmetry; exact Hs.
Qed.

(** The fuel of [re_findall] never runs out: above the length of the text
    the matches do not depend on it. *)
Lemma findall_from_fuel (r : regex) (n : nat) :
  forall m s,
    length s < n -> length s < m -> findall_from n r s = findall_from m r s.
Proof.
  induction n as [|n IH]; intros m s Hn Hm; [lia|].
  destruct m as [|m]; [lia|]. cbn [findall_from].
  assert (Htail : match s with [] => [] | _ :: s' => findall_from n r s' end
                  = match s with [] => [] | _ :: s' => findall_from m r s' end).
  { destruct s as [|c s]; [reflexivity|]. simpl in Hn, Hm. apply IH; lia. }
  destruct (match_here r s) as [rest|]; [|exact Htail].
  f_equal. destruct (length rest <? length s) eqn:E; [|exact Htail].
  apply Nat.ltb_lt in E. apply IH; lia.
Qed.

Lemma re_findall_step (r : regex) (s : str) :
  re_findall r s =
  match match_here r s with
  | Some rest =>
      firstn (length s - length rest) s ::
      (if length rest <? length s then re_findall r rest
       else match s with
            | [] => []
            | _ :: s' => re_findall r s'
            end)
  | None =>
      match s with
      | [] => []
      | _ :: s' => re_findall r s'
      end
  end.
Proof.
  unfold re_findall at 1. cbn [findall_from].
  assert (Htail : match s with [] => [] | _ :: s' => findall_from (length s) r s' end
                  = match s with [] => [] | _ :: s' => re_findall r s' end).
  { destruct s; reflexivity. }
  destruct (match_here r s) as [rest|]; [|exact Htail].
  f_equal. destruct (length rest <? length s) eqn:E; [|exact Htail].
  apply Nat.ltb_lt in E. unfold re_findall. apply findall_from_fuel; lia.
Qed.

Lemma re_findall_occurs (r : regex) (s x : str) :
  In x (re_findall r s) -> str_in x s = true.
Proof.
  intros H. apply findall_from_infix in H as (a & b & ->).
  apply str_in_infix.
Qed.

(* ================================================================== *)
(** * Removing the import lines of a screen *)
(* ================================================================== *)

Lemma list_remove_In (x : str) (l l' : list str) :
  list_remove x l = Some l' -> In x l.
Proof.
  revert l'; induction l as [|y l IH]; intros l' H; simpl in H; [discriminate|].
  destruct (str_eqb y x) eqn:E.
  - left. apply str_eqb_eq; exact E.
  - destruct (list_remove x l) as [l''|]; [|discriminate].
    right. eapply IH; reflexivity.
Qed.

Lemma list_remove_incl (x : str) (l l' : list str) :
  list_remove x l = Some l' -> incl l' l.
Proof.
  revert l'; induction l as [|y l IH]; intros l' H; simpl in H; [discriminate|].
  destruct (str_eqb y x).
  - injection H as <-. apply incl_tl, incl_refl.
  - destruct (list_remove x l) as [l''|]; [|discriminate].
    injection H as <-. apply incl_cons; [left; reflexivity|].
    apply incl_tl. apply IH; reflexivity.
Qed.

Lemma remove_imports_all_present (name_view module_name : str)
      (imports imports' : list str) :
  remove_imports name_view module_name imports = Some imports' ->
  incl (import_lines name_view module_name) imports.
Proof.
  unfold remove_imports. cbn [import_lines fold_left]. intros H.
  destruct (list_remove _ imports) as [l1|] eqn:H1; [|discriminate].
  destruct (list_remove _ l1) as [l2|] eqn:H2; [|discriminate].
  pose proof (list_remove_incl _ _ _ H1) as I1.
  pose proof (list_remove_incl _ _ _ H2) as I2.
  intros x [<-|[<-|[<-|[]]]].
  - eapply list_remove_In; exact H1.
  - apply I1. eapply list_remove_In; exact H2.
  - apply I1, I2. eapply list_remove_In; exact H.
Qed.

Lemma remove_update_screens_data_fails (name_view module_name : str) (p : path)
      (fs : node) (old : str) (es : list (str * node)) :
  lookup (registry_path p) fs = Some (File old) ->
  lookup (p ++ [py "View"]) fs = Some (Dir es) ->
  remove_imports name_view module_name (re_findall imports_pattern old) = None ->
  RemoveView.update_screens_data name_view module_name p fs
  = (inl ValueError, fs).
Proof.
  intros Hreg Hview Hrm.
  unfold RemoveView.update_screens_data. rewrite !registry_path_app.
  rewrite (bind_read_file _ old _ _ Hreg). cbv zeta.
  rewrite (bind_listdir _ es _ _ Hview), bind_remove_loop.
  unfold remove_imports in Hrm. cbn [import_lines fold_left] in Hrm.
  rewrite bind_or_raise.
  destruct (list_remove _ (re_findall imports_pattern old)) as [l1|];
    [|reflexivity].
  rewrite bind_or_raise.
  destruct (list_remove _ l1) as [l2|]; [|reflexivity].
  rewrite bind_or_raise, Hrm. reflexivity.
Qed.

Lemma remove_update_screens_data_writes (name_view module_name : str)
      (p : path) (fs : node) (old : str) (es : list (str * node))
      (imports' : list str) :
  lookup (registry_path p) fs = Some (File old) ->
  lookup (p ++ [py "View"]) fs = Some (Dir es) ->
  forallb plain_name (map fst es) = true ->
  remove_imports name_view module_name (re_findall imports_pattern old)
  = Some imports' ->
  exists fs',
    RemoveView.update_screens_data name_view module_name p fs = (inr tt, fs') /\
    registry_of p fs' =
    Some (registry_text RemoveView.screens_comment imports'
            (registry_body p fs') []).
Proof.
  intros Hreg Hview Hplain Hrm.
  destruct (registry_written p fs old
              (registry_text RemoveView.screens_comment imports'
                 (registry_body p fs) []) Hreg) as (fs' & Hw & Hr & Hb).
  exists fs'. rewrite Hb. split; [|exact Hr].
  unfold RemoveView.update_screens_data. rewrite !registry_path_app.
  rewrite (bind_read_file _ old _ _ Hreg). cbv zeta.
  rewrite (bind_listdir _ es _ _ Hview), bind_remove_loop.
  rewrite (loop_body_registry_body p fs es Hview Hplain).
  unfold remove_imports in Hrm. cbn [import_lines fold_left] in Hrm.
  rewrite bind_or_raise.
  destruct (list_remove _ (re_findall imports_pattern old)) as [l1|];
    [|discriminate].
  rewrite bind_or_raise.
  destruct (list_remove _ l1) as [l2|]; [|discriminate].
  rewrite bind_or_raise, Hrm.
  rewrite percent_screens_data_remove. cbn [or_raise]. rewrite bind_ret.
  rewrite <- Hw. reflexivity.
Qed.

(* ================================================================== *)
(** * The entry points, check by check *)
(* ================================================================== *)

Lemma remove_main_unfold (args : RemoveView.arguments) (fs : node) :
  let p := RemoveView.directory args in
  let name := RemoveView.name args in
  RemoveView.main args fs =
  match lookup p fs with
  | None => (inl (SystemExit 2), fs)
  | Some _ =>
      if negb (str_eqb (last_chars 6 name) (py "Screen"))
      then (inl (SystemExit 2), fs)
      else
        match lookup (p ++ [py "View"]) fs with
        | None => (inl FileNotFoundError, fs)
        | Some (File _) => (inl NotADirectoryError, fs)
        | Some (Dir es) =>
            if negb (list_in name (map fst es))
            then (inl (SystemExit 2), fs)
            else
              match CreateProject.check_camel_case_name_project name with
              | None | Some [] => (inl (SystemExit 2), fs)
              | Some toks =>
                  bind (RemoveView.remove_view name (moduleName toks) p)
                       (fun _ => RemoveView.update_screens_data
                                   name (moduleName toks) p) fs
              end
        end
  end.
Proof.
  cbv zeta. unfold RemoveView.main, os_path_exists, os_listdir, parser_error.
  rewrite bind_query.
  destruct (lookup (RemoveView.directory args) fs) as [n|]; cbn [negb];
    [|reflexivity].
  rewrite bind_ret.
  destruct (negb (str_eqb _ _)); [reflexivity|]. rewrite bind_ret, bind_query.
  destruct (lookup (RemoveView.directory args ++ [py "View"]) fs)
    as [[d|es]|]; try reflexivity.
  destruct (negb (list_in _ _)); [reflexivity|]. rewrite bind_ret.
  destruct (CreateProject.check_camel_case_name_project _) as [[|t toks]|];
    reflexivity.
Qed.

Lemma check_camel_case_two_tokens (name t : str) (toks : list str) :
  CreateProject.check_camel_case_name_project name = Some (t :: toks) ->
  2 <= length (tokens name).
Proof.
  unfold CreateProject.check_camel_case_name_project.
  rewrite re_findall_camel.
  destruct (length (tokens name) =? 1) eqn:E; [discriminate|].
  intros [= H]. apply Nat.eqb_neq in E. rewrite H in *. simpl in *. lia.
Qed.

Lemma add_main_rejects (args : AddView.arguments) (fs : node) :
  add_rejects args fs -> exists e, AddView.main args fs = (inl e, fs).
Proof.
  intros H.
  unfold AddView.main, os_path_exists, os_listdir, parser_error. cbv zeta.
  rewrite bind_query.
  destruct (lookup (AddView.directory args) fs) as [n|] eqn:Hp; cbn [negb];
    [|eexists; reflexivity].
  rewrite bind_ret.
  destruct (str_eqb _ _) eqn:Hs; cbn [negb]; [|eexists; reflexivity].
  rewrite bind_ret, bind_query.
  destruct (lookup (AddView.directory args ++ [py "View"]) fs)
    as [[d|es]|] eqn:Hv; try (eexists; reflexivity).
  destruct (list_in _ _) eqn:Hin; [eexists; reflexivity|].
  rewrite bind_ret, bind_query.
  destruct (lookup (AddView.directory args ++ [py "Model"]) fs)
    as [[d|ms]|]; try (eexists; reflexivity).
  destruct (CreateProject.check_camel_case_name_project _)
    as [[|t toks]|] eqn:Hc; try (eexists; reflexivity).
  exfalso. apply check_camel_case_two_tokens in Hc.
  destruct H as [H|[H|[(es' & H & H')|H]]]; try congruence; lia.
Qed.

Lemma remove_main_rejects (args : RemoveView.arguments) (fs : node) :
  remove_rejects args fs -> exists e, RemoveView.main args fs = (inl e, fs).
Proof.
  intros H. pose proof (remove_main_unfold args fs) as Hm. cbv zeta in Hm.
  rewrite Hm; clear Hm.
  destruct (lookup (RemoveView.directory args) fs) as [n|] eqn:Hp;
    [|eexists; reflexivity].
  destruct (str_eqb _ _) eqn:Hs; cbn [negb]; [|eexists; reflexivity].
  destruct (lookup (RemoveView.directory args ++ [py "View"]) fs)
    as [[d|es]|] eqn:Hv; try (eexists; reflexivity).
  destruct (list_in _ _) eqn:Hin; cbn [negb]; [|eexists; reflexivity].
  destruct (CreateProject.check_camel_case_name_project _)
    as [[|t toks]|] eqn:Hc; try (eexists; reflexivity).
  exfalso. apply check_camel_case_two_tokens in Hc.
  destruct H as [H|[H|[(es' & H & H')|H]]]; try congruence; lia.
Qed.

(** [remove_view]: the files it goes on to remove lie in the directory it has
    just deleted. *)
Lemma remove_view_after_rmtree (name_screen module_name : str) (p : path)
      (fs fs' : node) :
  rmtree (p ++ [py "View"; name_screen]) fs = (inr tt, fs') ->
  RemoveView.remove_view name_screen module_name p fs
  = (inl FileNotFoundError, fs').
Proof.
  intros Hrm. unfold RemoveView.remove_view. cbv zeta.
  unfold bind at 1. rewrite Hrm.
  unfold rmtree, change in Hrm.
  destruct (fs_update _ (p ++ [py "View"; name_screen]) fs) as [e|fs1] eqn:Hu;
    [discriminate|].
  injection Hrm as <-.
  unfold bind, os_remove, change.
  replace ((p ++ [py "View"; name_screen]) ++ [py "Controller"; py "components"])
    with ((p ++ [py "View"]) ++ name_screen :: [py "Controller"; py "components"])
    by (rewrite <- !app_assoc; reflexivity).
  replace (p ++ [py "View"; name_screen])
    with ((p ++ [py "View"]) ++ [name_screen]) in Hu
    by (rewrite <- !app_assoc; reflexivity).
  erewrite fs_update_below_dropped; [reflexivity | | exact Hu | discriminate].
  intros [[d|es]|] r H; congruence.
Qed.

Lemma screens_py_is_no_screen (name : str) :
  str_eqb (last_chars 6 name) (py "Screen") = true ->
  str_eqb (py "screens.py") name = false.
Proof.
  intros H. destruct (str_eqb (py "screens.py") name) eqn:E; [|reflexivity].
  apply str_eqb_eq in E; subst name. vm_compute in H. discriminate.
Qed.

Lemma rmtree_keeps_registry (p : path) (name : str) (fs fs' : node) :
  str_eqb (py "screens.py") name = false ->
  rmtree (p ++ [py "View"; name]) fs = (inr tt, fs') ->
  registry_of p fs' = registry_of p fs.
Proof.
  intros Hne Hrm. unfold rmtree, change in Hrm.
  destruct (fs_update _ (p ++ [py "View"; name]) fs) as [e|fs1] eqn:Hu;
    [discriminate|].
  injection Hrm as <-.
  replace (p ++ [py "View"; name]) with ((p ++ [py "View"]) ++ [name]) in Hu
    by (rewrite <- !app_assoc; reflexivity).
  unfold registry_of, registry_path.
  replace (p ++ [py "View"; py "screens.py"])
    with ((p ++ [py "View"]) ++ py "screens.py" :: [])
    by (rewrite <- !app_assoc; reflexivity).
  rewrite (fs_update_sibling _ _ _ _ _ _ _ Hu Hne). reflexivity.
Qed.

(* ================================================================== *)
(** * What a successful [rmtree] tells about the tree *)
(* ================================================================== *)

Lemma lookup_app (a b : path) (n : node) :
  lookup (a ++ b) n =
  match lookup a n with
  | Some m => lookup b m
  | None => None
  end.
Proof.
  revert n; induction a as [|x a IH]; intros n; [reflexivity|].
  simpl. destruct n as [|es]; [reflexivity|].
  destruct (assoc x es); [apply IH | reflexivity].
Qed.

Lemma fs_update_found (f : option node -> exn + option node)
      (pre : path) (x : str) (n n' : node) :
  fs_update f (pre ++ [x]) n = inr n' ->
  exists es r, lookup pre n = Some (Dir es) /\ f (assoc x es) = inr r.
Proof.
  revert n n'; induction pre as [|z pre IH]; intros n n' Hu.
  - simpl in Hu. destruct n as [|es]; [discriminate|].
    destruct (f (assoc x es)) as [e|r] eqn:Hf; [discriminate|].
    exists es, r. split; [reflexivity | exact Hf].
  - cbn [app fs_update] in Hu. destruct n as [|es]; [discriminate|].
    destruct (pre ++ [x]) as [|w l] eqn:Hp; [destruct pre; discriminate|].
    destruct (assoc z es) as [d|] eqn:Hz; [|discriminate].
    destruct (fs_update f (w :: l) d) as [e|d'] eqn:Hd; [discriminate|].
    destruct (IH d d' Hd) as (es' & r & Hl & Hf).
    exists es', r. split; [|exact Hf]. simpl. rewrite Hz. exact Hl.
Qed.

Lemma assoc_list_in (x : str) (c : node) (es : list (str * node)) :
  assoc x es = Some c -> list_in x (map fst es) = true.
Proof.
  induction es as [|[y d] es IH]; simpl; [discriminate|].
  destruct (str_eqb x y); [reflexivity|]. exact IH.
Qed.

Lemma rmtree_found (p : path) (name : str) (fs fs' : node) :
  rmtree (p ++ [py "View"; name]) fs = (inr tt, fs') ->
  exists n es,
    lookup p fs = Some n /\
    lookup (p ++ [py "View"]) fs = Some (Dir es) /\
    list_in name (map fst es) = true.
Proof.
  intros Hrm. unfold rmtree, change in Hrm.
  destruct (fs_update _ (p ++ [py "View"; name]) fs) as [e|fs1] eqn:Hu;
    [discriminate|].
  replace (p ++ [py "View"; name]) with ((p ++ [py "View"]) ++ [name]) in Hu
    by (rewrite <- !app_assoc; reflexivity).
  apply fs_update_found in Hu as (es & r & Hl & Hf).
  pose proof Hl as Hl'. rewrite lookup_app in Hl'.
  destruct (lookup p fs) as [n|]; [|discriminate].
  exists n, es. repeat split; [exact Hl|].
  destruct (assoc name es) as [c|] eqn:Ha; [|discriminate].
  eapply assoc_list_in; exact Ha.
Qed.

(* ================================================================== *)
(** * From the module name back to the screen name *)
(* ================================================================== *)






Lemma module_name_of_valid (name : str) :
  passes_validation name ->
  module_name_of name = Some (moduleName (tokens name)).
Proof.
  intros [_ Hlen]. unfold module_name_of,
    CreateProject.check_camel_case_name_project.
  rewrite re_findall_camel.
  destruct (tokens name) as [|t [|t' l]] eqn:E; simpl in Hlen; try lia.
  reflexivity.
Qed.

(* ================================================================== *)
(** * The claims *)
(* ================================================================== *)

(** C6.  [check_camel_case_name_project] returns the matches of
    [[A-Z][^A-Z]*] in the name, from left to right and without overlap, and
    [False] when there is exactly one: the matches are the tokens obtained by
    cutting the name in front of every upper-case letter, each of them one
    upper-case letter followed by characters that are not upper-case, and
    together with what precedes the first of them they make up the name.
    [MainScreen] gives [Main], [Screen]; [UserProfileScreen] gives [User],
    [Profile], [Screen]; [Screen] is rejected. *)
Theorem check_camel_case_name_project_tokens :
  (forall name, re_findall camel_pattern name = tokens name) /\
  (forall name,
      no_upper (fst (split_upper name)) = true /\
      Forall is_token (tokens name) /\
      fst (split_upper name) ++ concat (tokens name) = name) /\
  (forall name,
      CreateProject.check_camel_case_name_project name =
      if length (tokens name) =? 1 then None else Some (tokens name)) /\
  CreateProject.check_camel_case_name_project (py "MainScreen")
  = Some [py "Main"; py "Screen"] /\
  CreateProject.check_camel_case_name_project (py "UserProfileScreen")
  = Some [py "User"; py "Profile"; py "Screen"] /\
  CreateProject.check_camel_case_name_project (py "Screen") = None.
Proof.
  split; [exact re_findall_camel|].
  split; [exact split_upper_shape|].
  split; [|repeat split; reflexivity].
  intros name. unfold CreateProject.check_camel_case_name_project.
  rewrite re_findall_camel. reflexivity.
Qed.

(** C8.  The module name is the underscore-join of the lower-cased tokens, the
    last token [Screen] included, and the screen key is the lower-cased
    space-join of the tokens, which is the space-join of the lower-cased
    tokens; both are total functions of the token list.  The synchronizer's
    [lower] of the underscore-join is the same module name.  For
    [UserProfileScreen] the module name is [user_profile_screen] and the key
    is [user profile screen], and these are the names [main] and the
    synchronizer use: adding the screen to the sample project creates
    [Model/user_profile_screen.py] and writes the entry of that key. *)
Theorem module_name_and_screen_key :
  (forall toks, screenKey toks = join (py " ") (map lower toks)) /\
  (forall toks, lower (join (py "_") toks) = moduleName toks) /\
  (forall name, passes_validation name ->
                module_name_of name = Some (moduleName (tokens name))) /\
  module_name_of (py "UserProfileScreen") = Some (py "user_profile_screen") /\
  moduleName [py "User"; py "Profile"; py "Screen"] = py "user_profile_screen" /\
  screenKey [py "User"; py "Profile"; py "Screen"] = py "user profile screen" /\
  (let fs' := snd (AddView.main (add_screen (py "UserProfileScreen"))
                                sample_project) in
   fst (AddView.main (add_screen (py "UserProfileScreen")) sample_project)
   = inr tt /\
   lookup [py "proj"; py "Model"; py "user_profile_screen.py"] fs' <> None /\
   str_in (py "    'user profile screen': {")
          (match registry_of [py "proj"] fs' with Some t => t | None => [] end)
   = true /\
   str_in (py "'kv': " ++ [dq] ++
           py "./View/UserProfileScreen/user_profile_screen.kv" ++ [dq])
          (match registry_of [py "proj"] fs' with Some t => t | None => [] end)
   = true).
Proof.
  split; [exact screenKey_join|].
  split; [exact moduleName_lower_join|].
  split; [exact module_name_of_valid|].
  repeat split; try reflexivity.
  vm_compute. discriminate.
Qed.

Lemma module_name_and_screen_key_witness :
  module_name_of (py "MainScreen")
  = Some (moduleName (tokens (py "MainScreen"))).
Proof.
  destruct module_name_and_screen_key as (_ & _ & H & _).
  apply H. split; [reflexivity | vm_compute; lia].
Defined.

(** C10.  On the same listing of the View directory (and the same tree), the
    loop of [add_view.update_screens_data] and the loop of
    [remove_view.update_screens_data] return the same body: they format the
    same entry template under the same test, and started from the empty text
    both return the entries of the listed screen directories. *)
Theorem add_and_remove_derive_the_same_body :
  AddView.entry_template = RemoveView.entry_template /\
  (forall (path_to_view : path) (names : list str) (screens : str) (fs : node),
      AddView.screens_loop path_to_view names screens fs
      = RemoveView.screens_loop path_to_view names screens fs) /\
  (forall (path_to_view : path) (names : list str) (fs : node),
      let body :=
        concat (map loop_entry
                  (filter is_screen_dir_name
                     (filter (fun n => is_dir (path_to_view ++ [n]) fs) names)))
      in
      AddView.screens_loop path_to_view names [] fs = (inr body, fs) /\
      RemoveView.screens_loop path_to_view names [] fs = (inr body, fs)).
Proof.
  split; [reflexivity|].
  assert (Hsame : forall pv names screens fs,
             AddView.screens_loop pv names screens fs
             = RemoveView.screens_loop pv names screens fs).
  { intros pv names. induction names as [|name names IH]; intros screens fs;
      [reflexivity|].
    cbn [AddView.screens_loop RemoveView.screens_loop]. rewrite !bind_isdir.
    destruct (is_dir (pv ++ [name]) fs); [|apply IH].
    destruct (_ && _); [|apply IH].
    rewrite percent_entry_add, percent_entry_remove. cbn [or_raise].
    rewrite !bind_ret. apply IH. }
  split; [exact Hsame|].
  intros pv names fs body. split.
  - apply add_screens_loop.
  - rewrite <- (Hsame pv names [] fs). apply add_screens_loop.
Qed.

(** C1.  When [update_screens_data] of [add_view] or of [remove_view] has
    rewritten the registry, the body of the new text is [registry_body] of
    the tree it leaves: one entry for each subdirectory of [View] whose name
    has at least two tokens, the last one [Screen], in the order of the
    listing, and nothing else.  The entry is keyed by the space-joined
    lower-cased tokens and its [kv] field is
    [./View/<ScreenName>/<module_name>.kv], built with [posixpath]. *)
Theorem registry_body_follows_view_directories :
  forall (p : path) (fs : node) (old : str) (es : list (str * node))
         (name_view module_name : str),
    lookup (registry_path p) fs = Some (File old) ->
    lookup (p ++ [py "View"]) fs = Some (Dir es) ->
    forallb plain_name (map fst es) = true ->
    (exists fs' imports,
        AddView.update_screens_data name_view module_name p fs = (inr tt, fs') /\
        registry_of p fs' =
        Some (registry_text AddView.screns_comment imports
                (registry_body p fs') [nl])) /\
    (forall imports',
        remove_imports name_view module_name (re_findall imports_pattern old)
        = Some imports' ->
        exists fs',
          RemoveView.update_screens_data name_view module_name p fs
          = (inr tt, fs') /\
          registry_of p fs' =
          Some (registry_text RemoveView.screens_comment imports'
                  (registry_body p fs') [])) /\
    (forall fs',
        registry_body p fs' =
        concat (map (fun name =>
                       entry_text sq
                         (join (py " ") (map lower (tokens name)))
                         (name ++ py "Model") (name ++ py "Controller")
                         (name ++ py "View")
                         ([dq] ++ py "./View/" ++ name ++ py "/" ++
                          join (py "_") (map lower (tokens name)) ++
                          py ".kv" ++ [dq]))
                    (filter (fun name =>
                               (2 <=? length (tokens name)) &&
                               str_eqb (last (tokens name) []) (py "Screen"))
                            (subdirectories (p ++ [py "View"]) fs')))).
Proof.
  intros p fs old es name_view module_name Hreg Hview Hplain.
  split; [|split].
  - destruct (add_update_screens_data_writes name_view module_name p fs old es
                Hreg Hview Hplain) as (fs' & Hrun & Hl).
    exists fs', (re_findall imports_pattern old ++
                 import_lines name_view module_name).
    split; assumption.
  - intros imports' Hrm.
    apply (remove_update_screens_data_writes name_view module_name p fs old
             es imports' Hreg Hview Hplain Hrm).
  - intros fs'. unfold registry_body. f_equal. apply map_ext. intros name.
    unfold registry_entry. rewrite screenKey_join. reflexivity.
Qed.

Lemma registry_body_follows_view_directories_witness :
  (exists fs' imports,
      AddView.update_screens_data (py "MainScreen") (py "main_screen")
        [py "proj"] sample_project = (inr tt, fs') /\
      registry_of [py "proj"] fs' =
      Some (registry_text AddView.screns_comment imports
              (registry_body [py "proj"] fs') [nl])) /\
  (exists fs',
      RemoveView.update_screens_data (py "MainScreen") (py "main_screen")
        [py "proj"] sample_project = (inr tt, fs') /\
      registry_of [py "proj"] fs' =
      Some (registry_text RemoveView.screens_comment []
              (registry_body [py "proj"] fs') [])).
Proof.
  destruct (registry_body_follows_view_directories
              [py "proj"] sample_project sample_registry
              [ (py "MainScreen", Dir [(py "components", Dir [])]);
                (py "base_screen.py", File []);
                (py "screens.py", File sample_registry) ]
              (py "MainScreen") (py "main_screen")
              eq_refl eq_refl eq_refl) as (Ha & Hr & _).
  split; [exact Ha | exact (Hr [] eq_refl)].
Defined.

(** C3 (as stated, refuted).  On the registry from which the import of the
    Settings controller was deleted by hand, removing [SettingsScreen] does
    not end in an exception of the name RegistryConsistencyError: the
    exception is the [ValueError] of [list.remove]. *)
Lemma remove_raises_no_registry_consistency_error :
  ~ (forall (p : path) (fs : node) (old : str) (es : list (str * node))
            (name_view module_name : str),
        lookup (registry_path p) fs = Some (File old) ->
        lookup (p ++ [py "View"]) fs = Some (Dir es) ->
        existsb (fun line => negb (str_in line old))
                (import_lines name_view module_name) = true ->
        exists e,
          RemoveView.update_screens_data name_view module_name p fs
          = (inl e, fs) /\
          exn_name e = py "RegistryConsistencyError").
Proof.
  intros H.
  destruct (H [py "proj"] edited_project edited_registry
              [ (py "MainScreen", Dir [(py "components", Dir [])]);
                (py "SettingsScreen", Dir [(py "components", Dir [])]);
                (py "AboutScreen", Dir [(py "components", Dir [])]);
                (py "base_screen.py", File []);
                (py "screens.py", File edited_registry) ]
              (py "SettingsScreen") (py "settings_screen")
              eq_refl eq_refl eq_refl) as (e & Hrun & Hname).
  vm_compute in Hrun. injection Hrun as <-. discriminate Hname.
Qed.

(** C3 (amended).  In [remove_view.update_screens_data], when one of the three
    import lines of the screen (for its Model, its Controller or its View)
    does not occur in the text of the registry, the call ends in the
    [ValueError] of [list.remove] and the tree, the registry with it, is left
    as it was: no partial import list is written. *)
Theorem remove_with_missing_import_fails :
  forall (p : path) (fs : node) (old : str) (es : list (str * node))
         (name_view module_name : str),
    lookup (registry_path p) fs = Some (File old) ->
    lookup (p ++ [py "View"]) fs = Some (Dir es) ->
    existsb (fun line => negb (str_in line old))
            (import_lines name_view module_name) = true ->
    RemoveView.update_screens_data name_view module_name p fs
    = (inl ValueError, fs).
Proof.
  intros p fs old es name_view module_name Hreg Hview Hmiss.
  apply (remove_update_screens_data_fails name_view module_name p fs old es
           Hreg Hview).
  destruct (remove_imports name_view module_name
              (re_findall imports_pattern old)) as [imports'|] eqn:Hrm;
    [|reflexivity].
  exfalso. apply remove_imports_all_present in Hrm.
  apply existsb_exists in Hmiss as (line & Hin & Hno).
  apply negb_true_iff in Hno.
  rewrite (re_findall_occurs imports_pattern old line (Hrm line Hin)) in Hno.
  discriminate.
Qed.

Lemma remove_with_missing_import_fails_witness :
  RemoveView.update_screens_data (py "SettingsScreen") (py "settings_screen")
    [py "proj"] edited_project
  = (inl ValueError, edited_project).
Proof.
  apply (remove_with_missing_import_fails
           [py "proj"] edited_project edited_registry
           [ (py "MainScreen", Dir [(py "components", Dir [])]);
             (py "SettingsScreen", Dir [(py "components", Dir [])]);
             (py "AboutScreen", Dir [(py "components", Dir [])]);
             (py "base_screen.py", File []);
             (py "screens.py", File edited_registry) ]);
    reflexivity.
Defined.

(** C9 (as stated, refuted).  The project created for [MainScreen] holds the
    creation-time registry; after [FooScreen] is added, the text the
    synchronizer has written for the screens Main and Foo is not the text
    project creation writes for the same two screens. *)
Lemma registry_is_not_the_creation_text :
  registry_of [py "proj"] sample_project
  = CreateProject.module_screens_text [py "MainScreen"] /\
  fst (AddView.main (add_screen (py "FooScreen")) sample_project) = inr tt /\
  subdirectories [py "proj"; py "View"]
    (snd (AddView.main (add_screen (py "FooScreen")) sample_project))
  = [py "MainScreen"; py "FooScreen"] /\
  registry_of [py "proj"]
    (snd (AddView.main (add_screen (py "FooScreen")) sample_project))
  <> CreateProject.module_screens_text [py "MainScreen"; py "FooScreen"].
Proof.
  repeat split; try reflexivity.
  vm_compute. discriminate.
Qed.

(** C9 (amended).  The registry text the synchronizer writes has the layout of
    the creation-time artifact without being the same text: the comment
    lines, the import lines (the ones found in the old text and, on adding,
    the three of the new screen; on removing, without the three of the
    screen), a blank line, [screens = {], one entry per screen directory with
    the fields model, controller, view and kv, an empty line and the closing
    brace, followed by a newline after an addition and by nothing after a
    removal.  The key and the field names of an entry are written in single
    quotes; the creation-time generator writes the same entry with double
    quotes. *)
Theorem registry_text_layout :
  forall (p : path) (fs : node) (old : str) (es : list (str * node))
         (name_view module_name : str),
    lookup (registry_path p) fs = Some (File old) ->
    lookup (p ++ [py "View"]) fs = Some (Dir es) ->
    forallb plain_name (map fst es) = true ->
    (exists fs',
        AddView.update_screens_data name_view module_name p fs = (inr tt, fs') /\
        registry_of p fs' =
        Some (AddView.screns_comment ++ [nl] ++
              join [nl] (re_findall imports_pattern old ++
                         import_lines name_view module_name) ++
              [nl; nl] ++ py "screens = {" ++
              concat (map registry_entry
                        (filter is_screen_dir_name
                           (subdirectories (p ++ [py "View"]) fs'))) ++
              [nl] ++ py "}" ++ [nl])) /\
    (forall imports',
        remove_imports name_view module_name (re_findall imports_pattern old)
        = Some imports' ->
        exists fs',
          RemoveView.update_screens_data name_view module_name p fs
          = (inr tt, fs') /\
          registry_of p fs' =
          Some (join [nl] (RemoveView.screens_comment :: imports') ++
                [nl; nl] ++ py "screens = {" ++
                concat (map registry_entry
                          (filter is_screen_dir_name
                             (subdirectories (p ++ [py "View"]) fs'))) ++
                [nl] ++ py "}")) /\
    (forall key model controller view kv,
        percent AddView.entry_template [key; model; controller; view; kv]
        = Some (entry_text sq key model controller view kv) /\
        percent RemoveView.entry_template [key; model; controller; view; kv]
        = Some (entry_text sq key model controller view kv) /\
        percent CreateProject.entry_template
                [[dq] ++ key ++ [dq]; model; controller; view; kv]
        = Some (entry_text dq key model controller view kv)).
Proof.
  intros p fs old es name_view module_name Hreg Hview Hplain.
  split; [|split].
  - destruct (add_update_screens_data_writes name_view module_name p fs old es
                Hreg Hview Hplain) as (fs' & Hrun & Hl).
    exists fs'. split; [exact Hrun|]. rewrite Hl.
    unfold registry_text, registry_body. cbn [join import_lines app].
    destruct (re_findall imports_pattern old); reflexivity.
  - intros imports' Hrm.
    destruct (remove_update_screens_data_writes name_view module_name p fs old
                es imports' Hreg Hview Hplain Hrm) as (fs' & Hrun & Hl).
    exists fs'. split; [exact Hrun|]. rewrite Hl.
    unfold registry_text, registry_body. rewrite app_nil_r.
    reflexivity.
  - intros key model controller view kv. split; [|split].
    + apply percent_entry_add.
    + apply percent_entry_remove.
    + apply percent_entry_create.
Qed.

Lemma registry_text_layout_witness :
  (exists fs',
      AddView.update_screens_data (py "MainScreen") (py "main_screen")
        [py "proj"] sample_project = (inr tt, fs') /\
      registry_of [py "proj"] fs' =
      Some (AddView.screns_comment ++ [nl] ++
            join [nl] (import_lines (py "MainScreen") (py "main_screen") ++
                       import_lines (py "MainScreen") (py "main_screen")) ++
            [nl; nl] ++ py "screens = {" ++
            concat (map registry_entry
                      (filter is_screen_dir_name
                         (subdirectories [py "proj"; py "View"] fs'))) ++
            [nl] ++ py "}" ++ [nl])) /\
  (exists fs',
      RemoveView.update_screens_data (py "MainScreen") (py "main_screen")
        [py "proj"] sample_project = (inr tt, fs') /\
      registry_of [py "proj"] fs' =
      Some (join [nl] [RemoveView.screens_comment] ++
            [nl; nl] ++ py "screens = {" ++
            concat (map registry_entry
                      (filter is_screen_dir_name
                         (subdirectories [py "proj"; py "View"] fs'))) ++
            [nl] ++ py "}")).
Proof.
  destruct (registry_text_layout
              [py "proj"] sample_project sample_registry
              [ (py "MainScreen", Dir [(py "components", Dir [])]);
                (py "base_screen.py", File []);
                (py "screens.py", File sample_registry) ]
              (py "MainScreen") (py "main_screen")
              eq_refl eq_refl eq_refl) as (Ha & Hr & _).
  split; [exact Ha | exact (Hr [] eq_refl)].
Defined.

(** C4.  When [remove_view] has deleted [View/<ScreenName>], the two files it
    goes on to remove are [View/<ScreenName>/Controller/components] and
    [View/<ScreenName>/Model/<module_name>], inside the directory that is
    gone: [remove_view] ends in [FileNotFoundError] right after the deletion,
    whatever follows it is not run, and [main] ends there too, so that
    [update_screens_data] is never reached and the registry keeps its text. *)
Theorem remove_view_stops_after_rmtree :
  forall (args : RemoveView.arguments) (fs fs' : node),
    let p := RemoveView.directory args in
    let name := RemoveView.name args in
    str_eqb (last_chars 6 name) (py "Screen") = true ->
    2 <= length (tokens name) ->
    rmtree (p ++ [py "View"; name]) fs = (inr tt, fs') ->
    (forall module_name,
        RemoveView.remove_view name module_name p fs
        = (inl FileNotFoundError, fs')) /\
    (forall module_name (next : M unit),
        bind (RemoveView.remove_view name module_name p) (fun _ => next) fs
        = (inl FileNotFoundError, fs')) /\
    RemoveView.main args fs = (inl FileNotFoundError, fs') /\
    registry_of p fs' = registry_of p fs.
Proof.
  intros args fs fs' p name Hsuffix Htok Hrm.
  assert (Hview : forall module_name,
             RemoveView.remove_view name module_name p fs
             = (inl FileNotFoundError, fs'))
    by (intros; apply remove_view_after_rmtree; exact Hrm).
  assert (Hnext : forall module_name (next : M unit),
             bind (RemoveView.remove_view name module_name p) (fun _ => next) fs
             = (inl FileNotFoundError, fs'))
    by (intros; unfold bind; rewrite Hview; reflexivity).
  repeat split; auto.
  - pose proof (remove_main_unfold args fs) as Hm. cbv zeta in Hm.
    fold p name in Hm. rewrite Hm; clear Hm.
    destruct (rmtree_found p name fs fs' Hrm) as (n & es & Hp & Hv & Hin).
    rewrite Hp, Hsuffix, Hv, Hin. cbn [negb].
    unfold CreateProject.check_camel_case_name_project.
    rewrite re_findall_camel.
    destruct (tokens name) as [|t [|t' l]] eqn:E; simpl in Htok; try lia.
    cbn [length Nat.eqb]. apply Hnext.
  - apply (rmtree_keeps_registry p name fs fs');
      [apply screens_py_is_no_screen; exact Hsuffix | exact Hrm].
Qed.

Lemma remove_view_stops_after_rmtree_witness :
  RemoveView.main (remove_screen (py "MainScreen")) sample_project
  = (inl FileNotFoundError,
     snd (rmtree [py "proj"; py "View"; py "MainScreen"] sample_project)) /\
  registry_of [py "proj"]
    (snd (rmtree [py "proj"; py "View"; py "MainScreen"] sample_project))
  = registry_of [py "proj"] sample_project.
Proof.
  destruct (remove_view_stops_after_rmtree
              (remove_screen (py "MainScreen")) sample_project
              (snd (rmtree [py "proj"; py "View"; py "MainScreen"]
                           sample_project))
              eq_refl) as (_ & _ & Hmain & Hreg).
  - vm_compute. lia.
  - reflexivity.
  - split; [exact Hmain | exact Hreg].
Defined.

(** C5.  A run of [add_view.main] or of [remove_view.main] that fails
    validation (the project path does not exist, the name does not end in
    [Screen], the screen is already listed in [View] on adding or is not
    listed there on removing, the name has fewer than two tokens) ends in an
    error with the tree exactly as it was: nothing is created, removed or
    written before the failure is reported. *)
Theorem validation_precedes_mutation :
  forall (add : AddView.arguments) (remove : RemoveView.arguments) (fs : node),
    (add_rejects add fs -> exists e, AddView.main add fs = (inl e, fs)) /\
    (remove_rejects remove fs ->
     exists e, RemoveView.main remove fs = (inl e, fs)).
Proof.
  intros add remove fs. split.
  - apply add_main_rejects.
  - apply remove_main_rejects.
Qed.

Lemma validation_precedes_mutation_witness :
  (exists e, AddView.main (add_screen (py "MainScreen")) sample_project
             = (inl e, sample_project)) /\
  (exists e, RemoveView.main (remove_screen (py "AboutScreen")) sample_project
             = (inl e, sample_project)).
Proof.
  destruct (validation_precedes_mutation
              (add_screen (py "MainScreen")) (remove_screen (py "AboutScreen"))
              sample_project) as [Hadd Hremove].
  split.
  - apply Hadd. right; right; left. eexists. split; reflexivity.
  - apply Hremove. right; right; left. eexists. split; reflexivity.
Defined.

(** C2 (the code at the failing input).  [FooScreen] is added to the sample
    project and removed again: the removal deletes [View/FooScreen] and stops
    with [FileNotFoundError] before the registry is regenerated, so the
    registry still holds the entry and the imports of [FooScreen] although
    [MainScreen] is the only screen directory left. *)
Theorem add_then_remove_keeps_the_entry :
  let fs1 := snd (AddView.main (add_screen (py "FooScreen")) sample_project) in
  let fs2 := snd (RemoveView.main (remove_screen (py "FooScreen")) fs1) in
  fst (AddView.main (add_screen (py "FooScreen")) sample_project) = inr tt /\
  fst (RemoveView.main (remove_screen (py "FooScreen")) fs1)
  = inl FileNotFoundError /\
  subdirectories [py "proj"; py "View"] sample_project = [py "MainScreen"] /\
  subdirectories [py "proj"; py "View"] fs2 = [py "MainScreen"] /\
  registry_of [py "proj"] fs2 =
  Some (registry_text AddView.screns_comment
          (import_lines (py "MainScreen") (py "main_screen") ++
           import_lines (py "FooScreen") (py "foo_screen"))
          (registry_entry (py "MainScreen") ++ registry_entry (py "FooScreen"))
          [nl]).
Proof. repeat split; reflexivity. Qed.


Example module_name_drops_leading_lower_case :
  passes_validation (py "xMainScreen") /\
  module_name_of (py "xMainScreen") = module_name_of (py "MainScreen").
Proof. repeat split; vm_compute; lia. Qed.



(* ================================================================== *)
(** * More on names, tokens and keys *)
(* ================================================================== *)

Lemma str_eqb_neq_false (a b : str) : str_eqb a b = false <-> a <> b.
Proof.
  rewrite <- str_eqb_eq. destruct (str_eqb a b); split; congruence.
Qed.

Lemma tokens_count (s : str) : length (tokens s) = length (filter is_upper s).
Proof.
  unfold tokens. induction s as [|c s IH]; [reflexivity|].
  simpl. destruct (split_upper s) as [run toks]. simpl in IH.
  destruct (is_upper c); simpl; congruence.
Qed.

(** X1.  [check_camel_case_name_project] finds as many tokens as the name has
    upper-case letters: it answers [False] exactly for the names with one
    upper-case letter, and the empty list exactly for the names with none. *)
Theorem check_camel_case_counts_upper_case :
  forall name,
    length (re_findall camel_pattern name) = length (filter is_upper name) /\
    match CreateProject.check_camel_case_name_project name with
    | None => true
    | Some _ => false
    end = (length (filter is_upper name) =? 1) /\
    match CreateProject.check_camel_case_name_project name with
    | Some [] => true
    | _ => false
    end = (length (filter is_upper name) =? 0).
Proof.
  intros name. unfold CreateProject.check_camel_case_name_project.
  rewrite re_findall_camel, <- tokens_count.
  split; [reflexivity|].
  destruct (tokens name) as [|t [|t' l]]; repeat split; reflexivity.
Qed.

Lemma last_upper_unique (a b r s : str) (c d : ascii) :
  is_upper c = true -> is_upper d = true ->
  no_upper r = true -> no_upper s = true ->
  a ++ c :: r = b ++ d :: s -> c :: r = d :: s.
Proof.
  intros Hc Hd Hr Hs. revert b.
  assert (Hno : forall (x : ascii) (u v : str),
             is_upper x = true -> no_upper (u ++ x :: v) = false).
  { intros x u v Hx. unfold no_upper. rewrite forallb_app. simpl.
    rewrite Hx. simpl. apply andb_false_r. }
  induction a as [|x a IH]; intros [|y b] H; simpl in H.
  - exact H.
  - injection H as -> ->. rewrite (Hno d b s Hd) in Hr. discriminate.
  - injection H as <- <-. rewrite (Hno c a r Hc) in Hs. discriminate.
  - injection H as -> H. apply (IH b H).
Qed.

Lemma last_chars_app (x w : str) : last_chars (length w) (x ++ w) = w.
Proof.
  unfold last_chars. rewrite length_app, Nat.add_sub.
  rewrite skipn_app, Nat.sub_diag, skipn_all. reflexivity.
Qed.

Lemma last_chars_split (n : nat) (s : str) :
  exists x, s = x ++ last_chars n s.
Proof.
  exists (firstn (length s - n) s). unfold last_chars.
  symmetry. apply firstn_skipn.
Qed.

Lemma concat_last (l : list str) (t : str) :
  l <> [] -> last l [] = t -> exists x, concat l = x ++ t.
Proof.
  intros Hne <-. destruct (exists_last Hne) as (l' & t & ->).
  rewrite last_last, concat_app. simpl. rewrite app_nil_r.
  exists (concat l'). reflexivity.
Qed.

(** With tokens at hand, a name ends in [Screen] exactly when its last token
    is [Screen]. *)
Lemma suffix_is_last_token (name : str) :
  tokens name <> [] ->
  str_eqb (last_chars 6 name) (py "Screen")
  = str_eqb (last (tokens name) []) (py "Screen").
Proof.
  intros Hne.
  destruct (split_upper_shape name) as (_ & Htok & Hcat).
  destruct (concat_last (tokens name) (last (tokens name) []) Hne eq_refl)
    as (x & Hx).
  rewrite Hx in Hcat.
  assert (Hlast : is_token (last (tokens name) [])).
  { rewrite Forall_forall in Htok. apply Htok.
    destruct (exists_last Hne) as (l' & t & ->). rewrite last_last.
    apply in_or_app. right. left. reflexivity. }
  destruct Hlast as (c & r & Ht & Hc & Hr).
  destruct (str_eqb (last (tokens name) []) (py "Screen")) eqn:E.
  - apply str_eqb_eq in E. apply str_eqb_eq.
    rewrite <- Hcat, E, app_assoc.
    apply (last_chars_app (fst (split_upper name) ++ x) (py "Screen")).
  - apply str_eqb_neq_false. intros Hsfx. apply str_eqb_neq_false in E.
    apply E. destruct (last_chars_split 6 name) as (y & Hy).
    rewrite Hsfx in Hy. rewrite <- Hcat, Ht, app_assoc in Hy.
    rewrite Ht.
    apply (last_upper_unique _ y r (py "creen") c "S" Hc eq_refl Hr eq_refl Hy).
Qed.

(** X2.  The test of [main] on a screen name (it ends in [Screen] and
    [check_camel_case_name_project] is neither [False] nor empty) and the test
    of the registry loop on a directory name (at least two tokens, the last
    one [Screen]) accept the same names: a screen [main] lets in is listed by
    the synchronizer, and a directory the synchronizer lists has a name [main]
    lets in. *)
Theorem main_and_registry_accept_the_same_names :
  forall name,
    main_accepts name =
    (match re_findall camel_pattern name with [] => false | _ => true end)
    && (1 <? length (re_findall camel_pattern name))
    && str_eqb (last (re_findall camel_pattern name) []) (py "Screen").
Proof.
  intros name. unfold main_accepts, CreateProject.check_camel_case_name_project.
  rewrite re_findall_camel.
  destruct (tokens name) as [|t [|t' l]] eqn:E.
  - apply andb_false_r.
  - apply andb_false_r.
  - cbn [length Nat.eqb Nat.ltb Nat.leb andb]. rewrite andb_true_r.
    rewrite <- E. apply suffix_is_last_token. rewrite E. discriminate.
Qed.

Lemma join_cons (sep x : str) (l : list str) :
  l <> [] -> join sep (x :: l) = x ++ sep ++ join sep l.
Proof. destruct l; [congruence | reflexivity]. Qed.

Lemma split_acc_not_nil (sep : ascii) (cur s : str) : split_acc sep cur s <> [].
Proof.
  revert cur; induction s as [|c s IH]; intros cur; simpl; [discriminate|].
  destruct (Ascii.eqb c sep); [discriminate | apply IH].
Qed.

Lemma join_split_acc (a b : ascii) (cur s : str) :
  join [b] (split_acc a cur s) = rev cur ++ replace_char a b s.
Proof.
  revert cur; induction s as [|c s IH]; intros cur; simpl.
  - symmetry; apply app_nil_r.
  - destruct (Ascii.eqb c a).
    + rewrite join_cons by apply split_acc_not_nil. rewrite IH. reflexivity.
    + rewrite IH. simpl. rewrite <- app_assoc. reflexivity.
Qed.

Lemma replace_char_app (a b : ascii) (s t : str) :
  replace_char a b (s ++ t) = replace_char a b s ++ replace_char a b t.
Proof. apply map_app. Qed.

Lemma replace_char_absent (a b : ascii) (s : str) :
  existsb (Ascii.eqb a) s = false -> replace_char a b s = s.
Proof.
  induction s as [|c s IH]; simpl; [reflexivity|].
  rewrite orb_false_iff. intros [Hc Hs].
  rewrite Ascii.eqb_sym, Hc, (IH Hs). reflexivity.
Qed.

Lemma lower_char_underscore (c : ascii) :
  Ascii.eqb underscore (lower_char c) = Ascii.eqb underscore c.
Proof. destruct c as [[] [] [] [] [] [] [] []]; reflexivity. Qed.

Lemma has_underscore_lower (s : str) :
  has_underscore (lower s) = has_underscore s.
Proof.
  unfold has_underscore, lower. induction s as [|c s IH]; [reflexivity|].
  cbn [map existsb]. rewrite lower_char_underscore. f_equal. exact IH.
Qed.

Lemma has_underscore_join (sep : str) (l : list str) :
  existsb has_underscore l = true -> has_underscore (join sep l) = true.
Proof.
  induction l as [|x [|y l] IH]; intros H; [discriminate | |].
  - cbn [existsb] in H. rewrite orb_false_r in H. exact H.
  - change (join sep (x :: y :: l)) with (x ++ sep ++ join sep (y :: l)).
    change (existsb has_underscore (x :: y :: l))
      with (has_underscore x || existsb has_underscore (y :: l)) in H.
    unfold has_underscore in *. rewrite !existsb_app.
    apply orb_true_iff in H as [H|H].
    + rewrite H. reflexivity.
    + rewrite (IH H). rewrite !orb_true_r. reflexivity.
Qed.

Lemma replace_lower_absent (t : str) :
  has_underscore t = false -> replace_char underscore " " (lower t) = lower t.
Proof.
  intros H. apply replace_char_absent.
  change (has_underscore (lower t) = false).
  rewrite has_underscore_lower. exact H.
Qed.

Lemma replace_moduleName (toks : list str) :
  existsb has_underscore toks = false ->
  replace_char underscore " " (moduleName toks) = screenKey toks.
Proof.
  rewrite screenKey_join. unfold moduleName.
  induction toks as [|t [|t' l] IH]; intros H; [reflexivity| |].
  - cbn [existsb] in H. rewrite orb_false_r in H.
    cbn [map join]. apply replace_lower_absent. exact H.
  - change (existsb has_underscore (t :: t' :: l))
      with (has_underscore t || existsb has_underscore (t' :: l)) in H.
    apply orb_false_iff in H as [Ht H].
    change (map lower (t :: t' :: l)) with (lower t :: map lower (t' :: l)).
    rewrite !join_cons by discriminate.
    rewrite !replace_char_app, (IH H), (replace_lower_absent t Ht).
    reflexivity.
Qed.

Lemma replace_char_removes (a b : ascii) (s : str) :
  Ascii.eqb a b = false -> existsb (Ascii.eqb a) (replace_char a b s) = false.
Proof.
  intros Hab. induction s as [|c s IH]; [reflexivity|].
  simpl. rewrite IH, orb_false_r.
  destruct (Ascii.eqb c a) eqn:E; [exact Hab|].
  rewrite Ascii.eqb_sym. exact E.
Qed.

(** X3.  The [name:] that [create_view] writes into the layout file of a
    screen (the module name with every underscore replaced by a space) is
    always the key [create_screens_data] writes into the registry at project
    creation (the pieces of the module name between underscores, joined by
    spaces).  The key the synchronizer writes on adding a view (the
    lower-cased space-join of the tokens) is that same text exactly when no
    token holds an underscore. *)
Theorem layout_name_and_registry_keys :
  (forall module_name,
      join (py " ") (split underscore module_name)
      = replace_char underscore " " module_name) /\
  (forall toks,
      str_eqb (replace_char underscore " " (moduleName toks)) (screenKey toks)
      = negb (existsb has_underscore toks)).
Proof.
  split.
  - intros m. apply (join_split_acc underscore " " [] m).
  - intros toks. destruct (existsb has_underscore toks) eqn:E; cbn [negb].
    + apply str_eqb_neq_false. intros H.
      assert (Hkey : has_underscore (screenKey toks) = true).
      { unfold screenKey. rewrite has_underscore_lower.
        apply has_underscore_join. exact E. }
      rewrite <- H in Hkey. unfold has_underscore in Hkey.
      rewrite replace_char_removes in Hkey by reflexivity. discriminate.
    + apply str_eqb_eq. apply replace_moduleName. exact E.
Qed.

(* ================================================================== *)
(** * What a change of the tree leaves alone *)
(* ================================================================== *)


Lemma fs_update_diverge (f : option node -> exn + option node)
      (c : path) (a b : str) (q' u' : path) (n n' : node) :
  fs_update f (c ++ b :: u') n = inr n' ->
  str_eqb a b = false ->
  lookup (c ++ a :: q') n' = lookup (c ++ a :: q') n.
Proof.
  intros Hu Hab. revert n n' Hu.
  induction c as [|z c IH]; intros n n' Hu.
  - cbn [app] in *. destruct n as [|es]; [discriminate|].
    destruct u' as [|w u'].
    + simpl in Hu. destruct (f (assoc b es)) as [e|[d|]]; [discriminate| |];
        injection Hu as <-; simpl.
      * rewrite assoc_set_entry_other by exact Hab. reflexivity.
      * rewrite assoc_del_entry_other by exact Hab. reflexivity.
    + rewrite fs_update_deeper in Hu.
      destruct (assoc b es) as [d|]; [|discriminate].
      destruct (fs_update f (w :: u') d) as [e|d']; [discriminate|].
      injection Hu as <-. simpl.
      rewrite assoc_set_entry_other by exact Hab. reflexivity.
  - cbn [app fs_update] in Hu. destruct n as [|es]; [discriminate|].
    destruct (c ++ b :: u') as [|w l] eqn:Hp; [destruct c; discriminate|].
    destruct (assoc z es) as [d|] eqn:Hz; [|discriminate].
    destruct (fs_update f (w :: l) d) as [e|d'] eqn:Hd; [discriminate|].
    injection Hu as <-. cbn [app lookup].
    rewrite assoc_set_entry_same, Hz. apply IH. exact Hd.
Qed.



Lemma keeps_raise {A} (q : path) (e : exn) : keeps q (raise (A := A) e).
Proof. intros fs. reflexivity. Qed.


























Lemma remove_view_outcome (name_screen module_name : str) (p : path)
      (next : M unit) (fs : node) :
  exists e fs',
    bind (RemoveView.remove_view name_screen module_name p) (fun _ => next) fs
    = (inl e, fs') /\
    (fs' = fs \/ rmtree (p ++ [py "View"; name_screen]) fs = (inr tt, fs')).
Proof.
  destruct (rmtree (p ++ [py "View"; name_screen]) fs) as [[e|[]] fs'] eqn:Hrm.
  - exists e, fs. split; [|left; reflexivity].
    unfold RemoveView.remove_view. cbv zeta. unfold bind at 1 2. rewrite Hrm.
    unfold rmtree, change in Hrm.
    destruct (fs_update _ _ fs); congruence.
  - exists FileNotFoundError, fs'. split; [|right; reflexivity].
    unfold bind at 1.
    rewrite (remove_view_after_rmtree name_screen module_name p fs fs' Hrm).
    reflexivity.
Qed.

(** X4.  Whatever its outcome, a run of [remove_view.main] changes the tree
    at most by dropping [View/<name>]: the final tree is the initial one or
    the one [rmtree] leaves.  Everything of the project outside [View] and
    every other entry of [View] is kept; the model and controller modules of
    the removed screen stay where they are. *)
Theorem remove_drops_only_the_view_directory :
  forall (args : RemoveView.arguments) (fs : node),
    let p := RemoveView.directory args in
    let name := RemoveView.name args in
    let fs' := snd (RemoveView.main args fs) in
    (fs' = fs \/ rmtree (p ++ [py "View"; name]) fs = (inr tt, fs')) /\
    (forall y q, str_eqb y (py "View") = false ->
                 lookup (p ++ y :: q) fs' = lookup (p ++ y :: q) fs) /\
    (forall y q, str_eqb y name = false ->
                 lookup (p ++ py "View" :: y :: q) fs'
                 = lookup (p ++ py "View" :: y :: q) fs).
Proof.
  intros args fs p name fs'.
  assert (Hcases : fs' = fs \/
                   rmtree (p ++ [py "View"; name]) fs = (inr tt, fs')).
  { unfold fs'. pose proof (remove_main_unfold args fs) as Hm.
    cbv zeta in Hm. fold p name in Hm. rewrite Hm; clear Hm.
    destruct (lookup p fs); [|left; reflexivity].
    destruct (negb (str_eqb _ _)); [left; reflexivity|].
    destruct (lookup (p ++ [py "View"]) fs) as [[d|es]|];
      try (left; reflexivity).
    destruct (negb (list_in _ _)); [left; reflexivity|].
    destruct (CreateProject.check_camel_case_name_project name)
      as [[|t toks]|]; try (left; reflexivity).
    destruct (remove_view_outcome name (moduleName (t :: toks)) p
                (RemoveView.update_screens_data name (moduleName (t :: toks)) p)
                fs) as (e & fs1 & -> & H).
    exact H. }
  split; [exact Hcases|].
  assert (Hframe : forall c a b q' u',
             str_eqb a b = false ->
             p ++ [py "View"; name] = c ++ b :: u' ->
             lookup (c ++ a :: q') fs' = lookup (c ++ a :: q') fs).
  { intros c a b q' u' Hab Hpath.
    destruct Hcases as [-> | Hrm]; [reflexivity|].
    unfold rmtree, change in Hrm. rewrite Hpath in Hrm.
    destruct (fs_update _ (c ++ b :: u') fs) as [e|fs1] eqn:Hu;
      [discriminate|].
    injection Hrm as <-.
    apply (fs_update_diverge _ c a b q' u' fs fs1 Hu Hab). }
  split.
  - intros y q Hy. apply (Hframe p y (py "View") q [name] Hy). reflexivity.
  - intros y q Hy.
    replace (p ++ py "View" :: y :: q) with ((p ++ [py "View"]) ++ y :: q)
      by (rewrite <- app_assoc; reflexivity).
    apply (Hframe (p ++ [py "View"]) y name q [] Hy).
    rewrite <- app_assoc. reflexivity.
Qed.

Lemma remove_drops_only_the_view_directory_witness :
  lookup [py "proj"; py "View"; py "FooScreen"]
    (snd (RemoveView.main (remove_screen (py "FooScreen")) project_with_foo))
  = None /\
  lookup [py "proj"; py "Model"; py "foo_screen.py"]
    (snd (RemoveView.main (remove_screen (py "FooScreen")) project_with_foo))
  = lookup [py "proj"; py "Model"; py "foo_screen.py"] project_with_foo /\
  lookup [py "proj"; py "View"; py "MainScreen"]
    (snd (RemoveView.main (remove_screen (py "FooScreen")) project_with_foo))
  = lookup [py "proj"; py "View"; py "MainScreen"] project_with_foo.
Proof.
  destruct (remove_drops_only_the_view_directory
              (remove_screen (py "FooScreen")) project_with_foo)
    as (_ & Hout & Hview).
  split; [reflexivity|]. split.
  - apply (Hout (py "Model") [py "foo_screen.py"]). reflexivity.
  - apply (Hview (py "MainScreen") []). reflexivity.
Defined.

(* ================================================================== *)
(** * Changes inside a directory that is known *)
(* ================================================================== *)











(* ================================================================== *)
(** * The steps of [add_view.main] on a project that is in order *)
(* ================================================================== *)





















(* ================================================================== *)
(** * The helpers of MVC/libs *)
(* ================================================================== *)

Lemma get_dict_pos_from_spec (key value : str) (lst : list Libs.dict) :
  forall index,
  match Libs.get_dict_pos_from index lst key value with
  | inr (Some i) =>
      exists k d,
        i = index + k /\ nth_error lst k = Some d /\
        Libs.getitem d key = Some value /\
        forallb (other_value key value) (firstn k lst) = true
  | inr None => forallb (other_value key value) lst = true
  | inl e =>
      e = KeyError /\
      exists k d,
        nth_error lst k = Some d /\ Libs.getitem d key = None /\
        forallb (other_value key value) (firstn k lst) = true
  end.
Proof.
  induction lst as [|d lst IH]; intros index; cbn [Libs.get_dict_pos_from].
  - reflexivity.
  - destruct (Libs.getitem d key) as [v|] eqn:Ed.
    + destruct (str_eqb v value) eqn:Ev.
      * apply str_eqb_eq in Ev. subst v.
        exists 0, d. rewrite Nat.add_0_r. repeat split; assumption.
      * assert (Ho : other_value key value d = true)
          by (unfold other_value; rewrite Ed, Ev; reflexivity).
        specialize (IH (S index)).
        destruct (Libs.get_dict_pos_from (S index) lst key value) as [e|[i|]].
        -- destruct IH as [He (k & d' & Hk & Hd' & Hall)].
           split; [exact He|]. exists (S k), d'.
           cbn [nth_error firstn forallb]. rewrite Ho, Hall. repeat split; assumption.
        -- destruct IH as (k & d' & Hi & Hk & Hd' & Hall).
           exists (S k), d'. cbn [nth_error firstn forallb]. rewrite Ho, Hall.
           repeat split; try assumption. lia.
        -- cbn [forallb]. rewrite Ho, IH. reflexivity.
    + split; [reflexivity|]. exists 0, d. repeat split; assumption.
Qed.

(** X7 (get_dict_pos). The call gives the index of the first dictionary
    whose value under the key is the one looked for; every dictionary before
    it has the key with another value. It gives [None] when every dictionary
    has the key with another value, and raises [KeyError] at the first
    dictionary without the key when none before it matches. *)
Theorem get_dict_pos_is_the_first_match
    (lst : list Libs.dict) (key value : str) :
  match Libs.get_dict_pos lst key value with
  | inr (Some i) =>
      exists d,
        nth_error lst i = Some d /\ Libs.getitem d key = Some value /\
        forallb (other_value key value) (firstn i lst) = true
  | inr None => forallb (other_value key value) lst = true
  | inl e =>
      e = KeyError /\
      exists k d,
        nth_error lst k = Some d /\ Libs.getitem d key = None /\
        forallb (other_value key value) (firstn k lst) = true
  end.
Proof.
  unfold Libs.get_dict_pos.
  pose proof (get_dict_pos_from_spec key value lst 0) as H.
  destruct (Libs.get_dict_pos_from 0 lst key value) as [e|[i|]]; try exact H.
  destruct H as (k & d & Hi & H). cbn in Hi. subst i. exists d. exact H.
Qed.

Lemma startswith_nil (t : str) : startswith [] t = true.
Proof. destruct t; reflexivity. Qed.

Lemma str_in_nil (t : str) : str_in [] t = true.
Proof. destruct t; reflexivity. Qed.

Lemma search_dict_spec (search_term data_key : str) (data : list Libs.dict) :
  Libs.search_dict search_term data_key data =
  if forallb (has_key data_key) data
  then inr (filter (value_contains search_term data_key) data)
  else inl KeyError.
Proof.
  induction data as [|d data IH]; cbn [Libs.search_dict forallb filter].
  - reflexivity.
  - unfold has_key at 1, value_contains at 1.
    destruct (Libs.getitem d data_key) as [v|]; [|reflexivity].
    rewrite IH. cbn [andb].
    destruct (forallb (has_key data_key) data); [|reflexivity].
    destruct (str_in search_term v); reflexivity.
Qed.

Lemma value_contains_has_key (search_term data_key : str) (d : Libs.dict) :
  value_contains search_term data_key d = true -> has_key data_key d = true.
Proof.
  unfold value_contains, has_key.
  destruct (Libs.getitem d data_key); [reflexivity | discriminate].
Qed.

Lemma filter_filter_same {A} (f : A -> bool) (l : list A) :
  filter f (filter f l) = filter f l.
Proof.
  induction l as [|x l IH]; cbn [filter]; [reflexivity|].
  destruct (f x) eqn:E; [|exact IH].
  cbn [filter]. rewrite E, IH. reflexivity.
Qed.

(** X8 (search_dict). When every dictionary has the key, the call gives, in
    their order, the dictionaries whose value contains the search term, and
    searching the result again gives the result back; otherwise it raises
    [KeyError], whether or not a dictionary matches. The empty term keeps
    every dictionary. *)
Theorem search_dict_is_a_filter
    (search_term data_key : str) (data : list Libs.dict) :
  (if forallb (has_key data_key) data
   then
     exists found,
       Libs.search_dict search_term data_key data = inr found /\
       found = filter (value_contains search_term data_key) data /\
       Libs.search_dict search_term data_key found = inr found /\
       Libs.search_dict [] data_key data = inr data
   else
     Libs.search_dict search_term data_key data = inl KeyError) .
Proof.
  rewrite !search_dict_spec.
  destruct (forallb (has_key data_key) data) eqn:Hall; [|reflexivity].
  exists (filter (value_contains search_term data_key) data).
  split; [reflexivity|]. split; [reflexivity|]. split.
  - rewrite search_dict_spec.
    replace (forallb (has_key data_key)
               (filter (value_contains search_term data_key) data)) with true.
    + rewrite filter_filter_same. reflexivity.
    + symmetry. apply forallb_forall. intros d Hd.
      apply filter_In in Hd. eapply value_contains_has_key, Hd.
  - f_equal. rewrite forallb_forall in Hall.
    clear - Hall. induction data as [|d data IH]; cbn [filter]; [reflexivity|].
    assert (Hd : value_contains [] data_key d = true).
    { pose proof (Hall d (or_introl eq_refl)) as Hk.
      unfold has_key in Hk. unfold value_contains.
      destruct (Libs.getitem d data_key); [apply str_in_nil | discriminate]. }
    rewrite Hd, IH; [reflexivity|].
    intros x Hx. apply Hall. right. exact Hx.
Qed.

Lemma join_snoc (sep : str) (l : list str) (x : str) :
  join sep (l ++ [x]) =
  match l with [] => x | _ :: _ => join sep l ++ sep ++ x end.
Proof.
  induction l as [|a l IH]; [reflexivity|].
  change ((a :: l) ++ [x]) with (a :: (l ++ [x])).
  rewrite join_cons by (destruct l; discriminate).
  rewrite IH. destruct l as [|b l]; [reflexivity|].
  rewrite (join_cons sep a) by discriminate.
  rewrite <- !app_assoc. reflexivity.
Qed.

Lemma replace_char_same (a : ascii) (s : str) : replace_char a a s = s.
Proof.
  induction s as [|c s IH]; cbn [replace_char map]; [reflexivity|].
  fold (replace_char a a s). rewrite IH.
  destruct (Ascii.eqb c a) eqn:E; [|reflexivity].
  apply Ascii.eqb_eq in E. subst. reflexivity.
Qed.

Lemma drop_last_word_cut (s : str) :
  exists rest,
    s = Libs.drop_last_word s ++ rest /\
    (s <> [] -> rest <> []) /\
    (Libs.drop_last_word s = [] \/ exists rest', rest = " "%char :: rest').
Proof.
  unfold Libs.drop_last_word, split.
  pose proof (join_split_acc " " " " [] s) as J.
  rewrite replace_char_same in J. cbn [rev app] in J.
  destruct (exists_last (split_acc_not_nil " " [] s)) as (l & x & E).
  rewrite E in *. rewrite removelast_last.
  rewrite join_snoc in J.
  destruct l as [|a l].
  - exists s. cbn [join app]. repeat split; auto.
  - exists (py " " ++ x). split; [symmetry; exact J|]. split.
    + intros _. discriminate.
    + right. exists x. reflexivity.
Qed.

Lemma drop_last_word_nil : Libs.drop_last_word [] = [].
Proof. reflexivity. Qed.

Lemma shorten_loop_total (text_width : str -> Z) (suffix : str) (lbl_width : Z) :
  forall fuel new_text t,
    length new_text + 2 <= fuel \/
    (new_text = [] /\ t = text_width ([] ++ suffix ++ py " more") /\ 1 <= fuel) ->
    Libs.shorten_loop text_width fuel new_text suffix t lbl_width <> None.
Proof.
  induction fuel as [|fuel IH]; intros new_text t H.
  - exfalso. destruct H as [H | (_ & _ & H)]; lia.
  - cbn [Libs.shorten_loop].
    destruct (text_width (new_text ++ suffix ++ py " more") >? lbl_width)%Z;
      [|discriminate].
    destruct (text_width (Libs.drop_last_word new_text ++ suffix ++ py " more")
              =? t)%Z eqn:E; [discriminate|].
    apply IH. destruct H as [H | (Hn & Ht & _)].
    + destruct new_text as [|c s].
      * right. rewrite drop_last_word_nil. cbn [length] in H.
        repeat split. lia.
      * left. destruct (drop_last_word_cut (c :: s)) as (rest & Hs & Hne & _).
        assert (Hl : length (c :: s) =
                     length (Libs.drop_last_word (c :: s)) + length rest)
          by (rewrite Hs at 1; apply length_app).
        destruct rest as [|r rest]; [exfalso; apply Hne; [discriminate|reflexivity]|].
        cbn [length] in *. lia.
    + exfalso. subst new_text t. rewrite drop_last_word_nil in E.
      rewrite Z.eqb_refl in E. discriminate.
Qed.

Lemma cut_at_space_drop (text new_text : str) :
  cut_at_space text new_text ->
  cut_at_space text (Libs.drop_last_word new_text).
Proof.
  intros (rest & Ht & Hc).
  destruct (drop_last_word_cut new_text) as (r & Hs & _ & Hr).
  exists (r ++ rest). split.
  - rewrite app_assoc, <- Hs. exact Ht.
  - destruct Hr as [Hr | (r' & Hr)]; [left; exact Hr|].
    right; right. subst r. exists (r' ++ rest). reflexivity.
Qed.

Lemma shorten_loop_shape (text_width : str -> Z) (text suffix : str)
    (lbl_width : Z) :
  forall fuel new_text t r,
    cut_at_space text new_text ->
    Libs.shorten_loop text_width fuel new_text suffix t lbl_width = Some r ->
    r = [] \/
    exists pre,
      cut_at_space text pre /\ r = pre ++ suffix /\
      (text_width (pre ++ suffix ++ py " more") <= lbl_width)%Z.
Proof.
  induction fuel as [|fuel IH]; intros new_text t r Hc H; [discriminate|].
  cbn [Libs.shorten_loop] in H.
  destruct (text_width (new_text ++ suffix ++ py " more") >? lbl_width)%Z eqn:Ew.
  - destruct (text_width (Libs.drop_last_word new_text ++ suffix ++ py " more")
              =? t)%Z.
    + injection H as <-. left. reflexivity.
    + eapply IH; [|exact H]. apply cut_at_space_drop, Hc.
  - injection H as <-. right. exists new_text.
    split; [exact Hc|]. split; [reflexivity|]. lia.
Qed.

(** X9 (shorten_text). For any measure of text widths the loop ends, after
    at most [len(text) + 2] rounds. The result is the empty string, or a
    beginning of the text, cut before one of its spaces unless it is the
    whole text or nothing, followed by the suffix; in the second case the
    width allowed, [lbl_width * lines], is positive, and the result with
    [" more"] after it fits into it. *)
Theorem shorten_text_ends_with_a_fitting_prefix
    (text_width : str -> Z) (text : str) (lbl_width lines : Z) (suffix : str) :
  exists r,
    Libs.shorten_text text_width text lbl_width lines suffix = Some r /\
    (r = [] \/
     exists pre,
       cut_at_space text pre /\ r = pre ++ suffix /\
       (0 < lbl_width * lines)%Z /\
       (text_width (pre ++ suffix ++ py " more") <= lbl_width * lines)%Z).
Proof.
  unfold Libs.shorten_text.
  destruct (lbl_width * lines <=? 0)%Z eqn:Ew.
  - exists []. split; [reflexivity | left; reflexivity].
  - destruct (Libs.shorten_loop text_width (length text + 3) text suffix 0
                (lbl_width * lines)) as [r|] eqn:E.
    + exists r. split; [reflexivity|].
      destruct (shorten_loop_shape text_width text suffix (lbl_width * lines)
                  (length text + 3) text 0%Z r) as [H | (pre & Hc & Hr & Hw)].
      * exists []. split; [symmetry; apply app_nil_r|]. right; left; reflexivity.
      * exact E.
      * left; exact H.
      * right. exists pre. repeat split; try assumption. lia.
    + exfalso. revert E. apply shorten_loop_total. left. lia.
Qed.

(* ================================================================== *)
(** * The registry at project creation *)
(* ================================================================== *)




(* ================================================================== *)
(** * Adding a screen and removing it again *)
(* ================================================================== *)









(* ================================================================== *)
(** * The loop of project creation *)
(* ================================================================== *)

Lemma creation_loop_rejects (name_database use_hotreload : str)
      (use_responsive : list str) (instantiate_responsive_view : str)
      (path_to_project : path) (bad : str) (rest : list str)
      (g : CreateProject.globals) (fs : node) :
  length (tokens bad) <= 1 ->
  creation_loop (bad :: rest) name_database use_hotreload use_responsive
                instantiate_responsive_view path_to_project g fs
  = (inl (SystemExit 2), fs).
Proof.
  intros H. cbn [creation_loop].
  unfold CreateProject.check_camel_case_name_project.
  rewrite re_findall_camel.
  destruct (tokens bad) as [|t [|t' l]]; [reflexivity | reflexivity |].
  cbn [length] in H. lia.
Qed.

Lemma creation_loop_app (name_database use_hotreload : str)
      (use_responsive : list str) (instantiate_responsive_view : str)
      (path_to_project : path) (names1 names2 : list str) :
  forall (g g1 : CreateProject.globals) (fs fs1 : node),
    creation_loop names1 name_database use_hotreload use_responsive
                  instantiate_responsive_view path_to_project g fs
    = (inr g1, fs1) ->
    creation_loop (names1 ++ names2) name_database use_hotreload
                  use_responsive instantiate_responsive_view path_to_project
                  g fs
    = creation_loop names2 name_database use_hotreload use_responsive
                    instantiate_responsive_view path_to_project g1 fs1 /\
    CreateProject.screens_data_loop names1 g = Some g1.
Proof.
  induction names1 as [|name names1 IH]; intros g g1 fs fs1 H.
  - cbn [creation_loop] in H. unfold ret in H. injection H as <- <-.
    split; reflexivity.
  - cbn [app creation_loop CreateProject.screens_data_loop] in *.
    destruct (CreateProject.check_camel_case_name_project name)
      as [[|t toks]|]; try discriminate.
    rewrite bind_ret in *.
    set (m := join (py "_") (map lower (t :: toks))) in *.
    unfold bind at 1 in H. unfold bind at 1.
    destruct (CreateProject.create_model name m name_database
                path_to_project fs) as [[e|[]] fsa]; [discriminate|].
    unfold bind at 1 in H. unfold bind at 1.
    destruct (CreateProject.create_controller name m use_hotreload
                path_to_project fsa) as [[e|[]] fsb]; [discriminate|].
    destruct (CreateProject.create_screens_data name m g) as [g'|];
      [|discriminate].
    cbn [or_raise] in *. rewrite bind_ret in *.
    unfold bind at 1 in H. unfold bind at 1.
    destruct (CreateProject.create_view instantiate_responsive_view name m
                use_responsive path_to_project fsb) as [[e|[]] fsc];
      [discriminate|].
    apply IH. exact H.
Qed.

(** X12 (the loop of create_project.main). The names of the screens are
    checked one after the other, each right before its modules are created.
    When the loop has created the screens of some names and the next name
    has fewer than two tokens, the run ends in [SystemExit 2] with the tree
    as the screens created so far have left it: nothing is undone, and the
    names after the rejected one are not looked at. The registry data
    collected for the screens created are those of the registry loop. *)
Theorem creation_stops_at_a_rejected_name :
  forall (name_database use_hotreload : str) (use_responsive : list str)
         (instantiate_responsive_view : str) (path_to_project : path)
         (names : list str) (bad : str) (rest : list str)
         (g g1 : CreateProject.globals) (fs fs1 : node),
    creation_loop names name_database use_hotreload use_responsive
                  instantiate_responsive_view path_to_project g fs
    = (inr g1, fs1) ->
    length (tokens bad) <= 1 ->
    creation_loop (names ++ bad :: rest) name_database use_hotreload
                  use_responsive instantiate_responsive_view path_to_project
                  g fs
    = (inl (SystemExit 2), fs1) /\
    CreateProject.screens_data_loop names g = Some g1.
Proof.
  intros nd uh ur irv p names bad rest g g1 fs fs1 Hrun Hbad.
  destruct (creation_loop_app nd uh ur irv p names (bad :: rest)
              g g1 fs fs1 Hrun) as [Happ Hdata].
  split; [|exact Hdata].
  rewrite Happ. apply creation_loop_rejects. exact Hbad.
Qed.

Lemma creation_stops_at_a_rejected_name_witness :
  let run :=
    creation_loop [py "FooScreen"] (py "no") (py "no") [] (py "yes")
                  [py "proj"] CreateProject.initial_globals sample_project in
  creation_loop [py "FooScreen"; py "Screen"; py "BarScreen"]
                (py "no") (py "no") [] (py "yes") [py "proj"]
                CreateProject.initial_globals sample_project
  = (inl (SystemExit 2), snd run) /\
  is_dir [py "proj"; py "View"; py "FooScreen"] (snd run) = true /\
  is_dir [py "proj"; py "View"; py "FooScreen"] sample_project = false.
Proof.
  intros run.
  destruct (creation_stops_at_a_rejected_name
              (py "no") (py "no") [] (py "yes") [py "proj"]
              [py "FooScreen"] (py "Screen") [py "BarScreen"]
              CreateProject.initial_globals
              (result_or CreateProject.initial_globals run)
              sample_project (snd run)) as [H _].
  - vm_compute. reflexivity.
  - vm_compute. lia.
  - split; [exact H|]. split; vm_compute; reflexivity.
Defined.
